(** * Verification of the e2e-messaging multicast client (src/client.py)

    The client exchanges envelopes over UDP multicast.  An envelope is the
    Python 5-tuple [(message_type, encrypted_message, nonce, signature,
    sig_nonce)] serialised with [pickle.dumps] and read back with
    [pickle.loads] followed by a 5-way tuple unpacking
    ([listen_for_messages], line 56).  This file embeds

    - the part of CPython's pickle that these envelopes use (strings, byte
      strings, tuples, the memo, framing), as the protocol 4 encoder and a
      stack-machine decoder that also reads the memo opcodes of protocols
      1-3;
    - one iteration of the receive loop [listen_for_messages], with the
      exception handlers of lines 107-112, and the loop itself over the
      sequence of results of [recvfrom];
    - the JOIN payload built by [discovery_loop];
    - the reading of the username (lines 37-42);
    - the three threads (lines 135-142) as interleaved steps;
    - the main send loop (lines 145-167) and the shutdown that follows it
      (lines 169-177).

    Python [str] values are represented by their UTF-8 encoding, as a Coq
    [string] (a sequence of 8-bit characters); [bytes] values are
    [list byte].  The crypto helpers of [crypto_utils] and the constants of
    [config] are collaborators whose source is not part of [src/]; they are
    section variables, so every theorem holds for every implementation. *)

From stdpp Require Import base gmap strings list.
From Stdlib Require Import Strings.Byte Strings.Ascii NArith ZArith.

Open Scope N_scope.
Set Warnings "-register-all".

#[global] Instance byte_eq_dec : EqDecision byte := Byte.byte_eq_dec.

(** ** Little-endian integers, as written by [struct.pack("<I")] / ["<Q"] *)

Definition byte_of_N (n : N) : byte :=
  match Byte.of_N (n mod 256) with Some b => b | None => x00 end.

Fixpoint le_bytes (k : nat) (n : N) : list byte :=
  match k with
  | O => []
  | S k' => byte_of_N n :: le_bytes k' (n / 256)
  end.

Fixpoint le_value (l : list byte) : N :=
  match l with
  | [] => 0
  | b :: l' => Byte.to_N b + 256 * le_value l'
  end.

(** [read(n)] on the unpickler's input: fails when the data is truncated. *)
Definition take_bytes (n : nat) (l : list byte) : option (list byte * list byte) :=
  if Nat.leb n (length l) then Some (firstn n l, skipn n l) else None.

(** ** UTF-8

    [utf8_valid surr b] is [true] when [b] decodes as UTF-8 (RFC 3629);
    with [surr = true] encoded surrogates are accepted too, as the
    ['surrogatepass'] error handler used by pickle for strings does. *)

Definition is_cont (b : byte) : bool :=
  let n := Byte.to_N b in (128 <=? n) && (n <=? 191).

Definition in_range (lo hi : N) (b : byte) : bool :=
  let n := Byte.to_N b in (lo <=? n) && (n <=? hi).

Fixpoint utf8_valid (surr : bool) (l : list byte) : bool :=
  match l with
  | [] => true
  | b0 :: r =>
    let n0 := Byte.to_N b0 in
    if n0 <? 128 then utf8_valid surr r
    else if (194 <=? n0) && (n0 <=? 223) then
      match r with
      | b1 :: r' => is_cont b1 && utf8_valid surr r'
      | [] => false
      end
    else if (224 <=? n0) && (n0 <=? 239) then
      match r with
      | b1 :: b2 :: r' =>
        (if n0 =? 224 then in_range 160 191 b1
         else if (n0 =? 237) && negb surr then in_range 128 159 b1
         else is_cont b1)
        && is_cont b2 && utf8_valid surr r'
      | _ => false
      end
    else if (240 <=? n0) && (n0 <=? 244) then
      match r with
      | b1 :: b2 :: b3 :: r' =>
        (if n0 =? 240 then in_range 144 191 b1
         else if n0 =? 244 then in_range 128 143 b1
         else is_cont b1)
        && is_cont b2 && is_cont b3 && utf8_valid surr r'
      | _ => false
      end
    else false
  end.

(** [bytes.decode('utf-8')] (strict). *)
Definition utf8_decode (b : list byte) : option string :=
  if utf8_valid false b then Some (String.string_of_list_byte b) else None.

(** Splitting a (valid) UTF-8 string into its code points: each lead byte
    starts a code point that also holds the continuation bytes after it. *)
Fixpoint utf8_group (l : list byte) : list byte * list (list byte) :=
  match l with
  | [] => ([], [])
  | b :: r =>
    let '(pend, cs) := utf8_group r in
    if is_cont b then (b :: pend, cs) else ([], (b :: pend) :: cs)
  end.

Definition utf8_chars (s : string) : list string :=
  map String.string_of_list_byte (snd (utf8_group (String.list_byte_of_string s))).

(** ** Python values carried by a pickle *)

Inductive pval :=
| PInt (z : Z)
| PStr (s : string)
| PBytes (b : list byte)
| PTuple (l : list pval).

(** The values the client itself pickles: tuples of [str] and [bytes]. *)
Inductive atom :=
| AStr (s : string)
| ABytes (b : list byte).

#[global] Instance atom_eq_dec : EqDecision atom.
Proof. solve_decision. Defined.

Definition atom_val (a : atom) : pval :=
  match a with AStr s => PStr s | ABytes b => PBytes b end.

(** ** [pickle.dumps] (protocol 4) on a tuple of strings and byte strings

    Follows [save_str], [save_bytes], [save_tuple], [memoize] and [get] of
    CPython's [pickle.py].  CPython memoises by object identity; here a value
    equal to an earlier element is fetched back from the memo with [BINGET],
    which is what CPython emits for the repeated placeholder object
    [config.NULL_BYTE] of a LEAVE envelope. *)

Definition write_atom (a : atom) : list byte :=
  match a with
  | AStr s =>
    let b := String.list_byte_of_string s in
    let n := N.of_nat (length b) in
    if n <=? 255 then x8c :: byte_of_N n :: b                (* SHORT_BINUNICODE *)
    else if 4294967295 <? n then x8d :: le_bytes 8 n ++ b    (* BINUNICODE8 *)
    else x58 :: le_bytes 4 n ++ b                            (* BINUNICODE *)
  | ABytes b =>
    let n := N.of_nat (length b) in
    if n <=? 255 then x43 :: byte_of_N n :: b                (* SHORT_BINBYTES *)
    else if 4294967295 <? n then x8e :: le_bytes 8 n ++ b    (* BINBYTES8 *)
    else x42 :: le_bytes 4 n ++ b                            (* BINBYTES *)
  end.

Fixpoint memo_index (x : atom) (memo : list atom) : option nat :=
  match memo with
  | [] => None
  | y :: memo' =>
    if decide (x = y) then Some 0%nat
    else match memo_index x memo' with Some i => Some (S i) | None => None end
  end.

(** [get(i)]: BINGET or LONG_BINGET. *)
Definition write_get (i : nat) : list byte :=
  let n := N.of_nat i in
  if n <? 256 then [x68; byte_of_N n] else x6a :: le_bytes 4 n.

Definition save_atom (memo : list atom) (x : atom) : list byte * list atom :=
  match memo_index x memo with
  | Some i => (write_get i, memo)
  | None => (write_atom x ++ [x94], memo ++ [x])            (* MEMOIZE *)
  end.

Fixpoint save_items (memo : list atom) (xs : list atom) : list byte * list atom :=
  match xs with
  | [] => ([], memo)
  | x :: xs' =>
    let '(b1, m1) := save_atom memo x in
    let '(b2, m2) := save_items m1 xs' in
    (b1 ++ b2, m2)
  end.

Definition tuple_body (xs : list atom) : list byte :=
  match xs with
  | [] => [x29]                                               (* EMPTY_TUPLE *)
  | _ =>
    let items := fst (save_items [] xs) in
    match length xs with
    | 1%nat => items ++ [x85; x94]                            (* TUPLE1 *)
    | 2%nat => items ++ [x86; x94]                            (* TUPLE2 *)
    | 3%nat => items ++ [x87; x94]                            (* TUPLE3 *)
    | _ => x28 :: items ++ [x74; x94]                         (* MARK .. TUPLE *)
    end
  end.

(** PROTO 4, then the body and STOP inside one FRAME (a frame is only
    written when it holds at least 4 bytes). *)
Definition dumps (xs : list atom) : list byte :=
  let body := tuple_body xs ++ [x2e] in
  [x80; x04] ++
  (if 4 <=? N.of_nat (length body)
   then x95 :: le_bytes 8 (N.of_nat (length body)) ++ body
   else body).

(** ** [pickle.loads]: the unpickler's stack machine on the opcodes above

    [stk] is the current stack (top first), [meta] the stack of stacks saved
    by MARK, [memo] the memo (MEMOIZE appends the top of the stack; BINPUT
    and LONG_BINPUT, used by protocols 1-3 as written by Python 3.0-3.7,
    store it at a given index).  Any failure of CPython's unpickler
    ([UnpicklingError], [EOFError], a bad memo key, a stack underflow, an
    unsupported protocol) is [None].

    [None] is also the result on a pickle outside this subset: another
    opcode (GLOBAL, STACK_GLOBAL, REDUCE, BYTEARRAY8, lists, integers, ...)
    or a BINPUT that leaves a gap in the memo.  CPython may accept such a
    pickle, and may run arbitrary code while loading it, so on those
    datagrams the model does not follow the code.  When [loads] returns a
    value, CPython's [pickle.loads] returns the same value (trailing bytes
    after STOP are ignored by both) and calls no function: the properties
    about arbitrary datagrams below are stated for such datagrams only, or
    for datagrams shown to be rejected by CPython too. *)

(** A length-prefixed field: [k] bytes of little-endian length, then data. *)
Definition read_counted (k : nat) (l : list byte) : option (list byte * list byte) :=
  match take_bytes k l with
  | Some (h, r) => take_bytes (N.to_nat (le_value h)) r
  | None => None
  end.

(** [str(data, 'utf-8', 'surrogatepass')] *)
Definition str_of_data (b : list byte) : option pval :=
  if utf8_valid true b then Some (PStr (String.string_of_list_byte b)) else None.

Fixpoint load (fuel : nat) (inp : list byte) (stk : list pval)
    (meta : list (list pval)) (memo : list pval) : option pval :=
  match fuel with
  | O => None
  | S fuel =>
    match inp with
    | [] => None
    | op :: rest =>
      match op with
      | x80 =>                                                (* PROTO *)
        match rest with
        | p :: rest' => if Byte.to_N p <=? 5 then load fuel rest' stk meta memo else None
        | [] => None
        end
      | x95 =>                                                (* FRAME *)
        match take_bytes 8 rest with
        | Some (h, rest') =>
          if Nat.leb (N.to_nat (le_value h)) (length rest')
          then load fuel rest' stk meta memo else None
        | None => None
        end
      | x28 => load fuel rest [] (stk :: meta) memo           (* MARK *)
      | x8c | x58 | x8d =>                                    (* unicode *)
        let k := match op with x8c => 1%nat | x58 => 4%nat | _ => 8%nat end in
        match read_counted k rest with
        | Some (b, rest') =>
          match str_of_data b with
          | Some v => load fuel rest' (v :: stk) meta memo
          | None => None
          end
        | None => None
        end
      | x43 | x42 | x8e =>                                    (* bytes *)
        let k := match op with x43 => 1%nat | x42 => 4%nat | _ => 8%nat end in
        match read_counted k rest with
        | Some (b, rest') => load fuel rest' (PBytes b :: stk) meta memo
        | None => None
        end
      | x94 =>                                                (* MEMOIZE *)
        match stk with
        | v :: _ => load fuel rest stk meta (memo ++ [v])
        | [] => None
        end
      | x71 | x72 =>                                          (* BINPUT *)
        let k := match op with x71 => 1%nat | _ => 4%nat end in
        match take_bytes k rest, stk with
        | Some (h, rest'), v :: _ =>
          let i := N.to_nat (le_value h) in
          if Nat.ltb i (length memo) then load fuel rest' stk meta (<[i := v]> memo)
          else if Nat.eqb i (length memo) then load fuel rest' stk meta (memo ++ [v])
          else None
        | _, _ => None
        end
      | x68 | x6a =>                                          (* BINGET *)
        let k := match op with x68 => 1%nat | _ => 4%nat end in
        match take_bytes k rest with
        | Some (h, rest') =>
          match nth_error memo (N.to_nat (le_value h)) with
          | Some v => load fuel rest' (v :: stk) meta memo
          | None => None
          end
        | None => None
        end
      | x74 =>                                                (* TUPLE *)
        match meta with
        | outer :: meta' => load fuel rest (PTuple (rev stk) :: outer) meta' memo
        | [] => None
        end
      | x29 => load fuel rest (PTuple [] :: stk) meta memo    (* EMPTY_TUPLE *)
      | x85 =>                                                (* TUPLE1 *)
        match stk with
        | a :: s => load fuel rest (PTuple [a] :: s) meta memo
        | _ => None
        end
      | x86 =>                                                (* TUPLE2 *)
        match stk with
        | b :: a :: s => load fuel rest (PTuple [a; b] :: s) meta memo
        | _ => None
        end
      | x87 =>                                                (* TUPLE3 *)
        match stk with
        | c :: b :: a :: s => load fuel rest (PTuple [a; b; c] :: s) meta memo
        | _ => None
        end
      | x2e =>                                                (* STOP *)
        match stk with
        | v :: _ => Some v
        | [] => None
        end
      | _ => None
      end
    end
  end.

(** Every opcode consumes at least one byte, so the input length bounds the
    number of steps. *)
Definition loads (p : list byte) : option pval := load (length p) p [] [] [].

(** [message_type, encrypted_message, nonce, signature, sig_nonce = v]:
    Python unpacks any iterable of length 5 (a tuple, a 5-byte [bytes]
    into ints, a 5-character [str] into characters); anything else raises
    [ValueError] or [TypeError]. *)
Definition unpack5 (v : pval) : option (pval * pval * pval * pval * pval) :=
  match v with
  | PTuple [a; b; c; d; e] => Some (a, b, c, d, e)
  | PBytes [a; b; c; d; e] =>
    let i x := PInt (Z.of_N (Byte.to_N x)) in Some (i a, i b, i c, i d, i e)
  | PStr s =>
    match utf8_chars s with
    | [a; b; c; d; e] => Some (PStr a, PStr b, PStr c, PStr d, PStr e)
    | _ => None
    end
  | _ => None
  end.

(** Line 56: the structural decoding of one datagram. *)
Definition decode_envelope (p : list byte) : option (pval * pval * pval * pval * pval) :=
  match loads p with
  | Some v => unpack5 v
  | None => None
  end.

(** ** Auxiliary measures for the codec proofs *)

(** Python objects are at most [sys.maxsize] = 2^63 - 1 long. *)
Definition atom_ok (x : atom) : Prop :=
  match x with
  | AStr s =>
    utf8_valid true (String.list_byte_of_string s) = true /\
    N.of_nat (length (String.list_byte_of_string s)) < 2 ^ 63
  | ABytes b => N.of_nat (length b) < 2 ^ 63
  end.

Definition atom_ops (em : list atom) (x : atom) : nat :=
  match memo_index x em with Some _ => 1 | None => 2 end.

Fixpoint items_ops (em : list atom) (xs : list atom) : nat :=
  match xs with
  | [] => 0
  | x :: xs' => atom_ops em x + items_ops (snd (save_atom em x)) xs'
  end.

(** Number of opcodes in [tuple_body xs]. *)
Definition body_ops (xs : list atom) : nat :=
  match xs with
  | [] => 1
  | _ =>
    match length xs with
    | 1%nat | 2%nat | 3%nat => items_ops [] xs + 2
    | _ => S (items_ops [] xs + 2)
    end
  end.

(** ** The receive loop [listen_for_messages] *)

(** [str.startswith] and [str.split(": ")[0]].  On UTF-8 both agree with
    Python's code-point versions, as ": " is ASCII. *)
Definition startswith (s p : string) : bool := String.prefix p s.

Fixpoint split_head (s : string) : string :=
  match s with
  | EmptyString => EmptyString
  | String c rest => if String.prefix ": " s then EmptyString else String c (split_head rest)
  end.

(** [message_type == "CHAT"]: only a [str] equal to it compares equal. *)
Definition is_str (v : pval) (s : string) : bool :=
  match v with PStr t => String.eqb t s | _ => false end.

(** A code point encoded as ED A0..BF xx: a lone surrogate, which the
    ['surrogatepass'] decoding of pickled strings lets into a [str]. *)
Definition is_surrogate (c : string) : bool :=
  match String.list_byte_of_string c with
  | [b0; b1; _] => Byte.eqb b0 xed && in_range 160 191 b1
  | _ => false
  end.

(** Whether [print(f"Unknown message type: {v}")] raises.  The text is
    encoded for stdout, taken as UTF-8 with the 'strict' error handler (the
    default under a UTF-8 locale): a surrogate raises [UnicodeEncodeError].
    A [str] is formatted as itself; [bytes], [int] and tuples by [repr],
    which escapes surrogates. *)
Definition print_fails (v : pval) : bool :=
  match v with PStr s => existsb is_surrogate (utf8_chars s) | _ => false end.

(** Console output of the receive loop. *)
Inductive line :=
| Show (s : string)                 (* print(s) *)
| ShowUnknownType (v : pval)        (* print(f"Unknown message type: {message_type}") *)
| ShowRecvError (cls : string).     (* print(f"Error receiving message: {e}") *)

(** Python exceptions reaching the handlers of lines 107-112. *)
Inductive exc :=
| OSErr (errno : Z)
| PyErr (cls : string).

Definition EBADF : Z := 9.

Record state {key : Type} := mk_state {
  known_peers : gmap string key;
  out : list line
}.
Arguments state : clear implicits.

(** One pass through the [try] block: it falls through (or [continue]s),
    or raises with the state reached so far. *)
Inductive body_res {key : Type} :=
| BNext (st : state key)
| BRaise (e : exc) (st : state key).
Arguments body_res : clear implicits.

(** The receive loop either is still running, blocked in [recvfrom] after
    the given datagrams, or has left the [while True] by [break]. *)
Inductive loop_res {key : Type} :=
| Running (st : state key)
| Exited (st : state key).
Arguments loop_res : clear implicits.

(** What one call of [client_socket.recvfrom] returns or raises. *)
Inductive recv_event :=
| RecvOK (payload : list byte)
| RecvErr (errno : Z).

Section Client.

Context {key : Type}.

(** The local username (line 38). *)
Variable username : string.

(** Modelled from the spec: [crypto_utils.unpack_data(ciphertext, nonce)],
    the Crypto Provider's [decrypt]; [None] is its [CryptoError]. *)
Variable unpack_data : pval -> pval -> option string.

(** Modelled from the spec: [crypto_utils.unpack_data(c, n, isKey=True)],
    decrypting the public key carried by a JOIN; [None] is a [CryptoError]. *)
Variable unpack_key : pval -> pval -> option key.

(** Modelled from the spec: [crypto_utils.verify_signature(key, sig, msg)],
    which returns [False] on a mismatch and never raises. *)
Variable verify_signature : key -> pval -> list byte -> bool.

Definition emit (st : state key) (l : line) : state key :=
  mk_state key (known_peers st) (out st ++ [l]).

Definition set_peers (st : state key) (m : gmap string key) : state key :=
  mk_state key m (out st).

(** Lines 58-105: dispatch on the message type. *)
Definition handle (st : state key) (message_type encrypted_message nonce signature sig_nonce : pval)
    : body_res key :=
  if is_str message_type "CHAT" then
    match unpack_data encrypted_message nonce with
    | None => BRaise (PyErr "CryptoError") st
    | Some raw_received_message =>
      if negb (startswith raw_received_message (username +:+ ": ")) then
        let sender_username := split_head raw_received_message in
        match known_peers st !! sender_username with
        | None => BNext st
        | Some pk =>
          if verify_signature pk signature (String.list_byte_of_string raw_received_message)
          then BNext (emit st (Show raw_received_message))
          else BNext st
        end
      else BNext st
    end
  else if is_str message_type "JOIN" then
    match unpack_data encrypted_message nonce with
    | None => BRaise (PyErr "CryptoError") st
    | Some new_username =>
      match unpack_key signature sig_nonce with
      | None => BRaise (PyErr "CryptoError") st
      | Some decrypted_public_key =>
        match known_peers st !! new_username with
        | None =>
          BNext (emit (set_peers st (<[new_username := decrypted_public_key]> (known_peers st)))
                      (Show ("Welcome " +:+ new_username +:+ " to the chat!")))
        | Some _ => BNext st
        end
      end
    end
  else if is_str message_type "LEAVE" then
    match encrypted_message with
    | PBytes b =>
      match utf8_decode b with
      | None => BRaise (PyErr "UnicodeDecodeError") st
      | Some decrypted_username =>
        let st1 := emit st (Show (decrypted_username +:+ " has left the chat.")) in
        match known_peers st1 !! decrypted_username with
        | Some _ => BNext (set_peers st1 (delete decrypted_username (known_peers st1)))
        | None => BNext st1
        end
      end
    | _ => BRaise (PyErr "AttributeError") st   (* only bytes has .decode *)
    end
  else if print_fails message_type then BRaise (PyErr "UnicodeEncodeError") st
  else BNext (emit st (ShowUnknownType message_type)).

(** Lines 50-56, then the dispatch.  [pickle.loads] raises
    [UnpicklingError] ([EOFError] when the input runs out at an opcode);
    the 5-way unpacking raises [ValueError] ([TypeError] on a value that is
    not iterable). *)
Definition process (st : state key) (ev : recv_event) : body_res key :=
  match ev with
  | RecvErr e => BRaise (OSErr e) st
  | RecvOK payload =>
    match loads payload with
    | None => BRaise (PyErr "UnpicklingError") st
    | Some v =>
      match unpack5 v with
      | None => BRaise (PyErr "ValueError") st
      | Some (mt, em, n, s, sn) => handle st mt em n s sn
      end
    end
  end.

(** The [while True] loop with its handlers: an [OSError] is swallowed
    ([if e.errno == errno.EBADF: pass], and nothing for other errnos), any
    other exception is printed and ends the loop ([break]). *)
Fixpoint listen (evs : list recv_event) (st : state key) : loop_res key :=
  match evs with
  | [] => Running st
  | ev :: evs' =>
    match process st ev with
    | BNext st' => listen evs' st'
    | BRaise (OSErr _) st' => listen evs' st'
    | BRaise (PyErr cls) st' => Exited (emit st' (ShowRecvError cls))
    end
  end.

(** The state reached by one pass through the [try] block, and by the loop. *)
Definition res_state (r : body_res key) : state key :=
  match r with BNext st | BRaise _ st => st end.

Definition loop_state (r : loop_res key) : state key :=
  match r with Running st | Exited st => st end.

(** One iteration of the [while True] loop, as long as the thread is in it. *)
Definition recv_step (r : loop_res key) (ev : recv_event) : loop_res key :=
  match r with
  | Exited st => Exited st
  | Running st =>
    match process st ev with
    | BNext st' => Running st'
    | BRaise (OSErr _) st' => Running st'
    | BRaise (PyErr cls) st' => Exited (emit st' (ShowRecvError cls))
    end
  end.

(** [ev] is a datagram that the JOIN branch reads as announcing the user
    [u] with the public key [k]. *)
Definition join_for (u : string) (k : key) (ev : recv_event) : Prop :=
  exists p mt em n s sn,
    ev = RecvOK p /\ decode_envelope p = Some (mt, em, n, s, sn) /\
    is_str mt "JOIN" = true /\ unpack_data em n = Some u /\ unpack_key s sn = Some k.

End Client.

(** A result of [recvfrom] on which the model follows the code: an error, or
    a datagram whose pickle [loads] reads (see [load]). *)
Definition plain_datagram (ev : recv_event) : bool :=
  match ev with
  | RecvOK p => match loads p with Some _ => true | None => false end
  | RecvErr _ => true
  end.

(** The username that the LEAVE branch reads from a datagram, if it reads it
    as a LEAVE. *)
Definition leave_name (ev : recv_event) : option string :=
  match ev with
  | RecvOK p =>
    match decode_envelope p with
    | Some (mt, PBytes b, _, _, _) => if is_str mt "LEAVE" then utf8_decode b else None
    | _ => None
    end
  | RecvErr _ => None
  end.

(** ** Envelopes sent by the client

    The wire envelope of the spec: a message type and four byte fields,
    pickled as the 5-tuple [(type, f2, f3, f4, f5)]. *)

Inductive msg_type := JOIN | CHAT | LEAVE.

Definition msg_type_str (t : msg_type) : string :=
  match t with JOIN => "JOIN" | CHAT => "CHAT" | LEAVE => "LEAVE" end.

Record Envelope := mk_envelope {
  message_type : msg_type;
  field2 : list byte;
  field3 : list byte;
  field4 : list byte;
  field5 : list byte
}.

Definition envelope_atoms (e : Envelope) : list atom :=
  [AStr (msg_type_str (message_type e)); ABytes (field2 e); ABytes (field3 e);
   ABytes (field4 e); ABytes (field5 e)].

(** [pickle.dumps((...))] at lines 123, 160 and 175. *)
Definition encode (e : Envelope) : list byte := dumps (envelope_atoms e).

(** The five values line 56 unpacks from a well-formed envelope. *)
Definition envelope_values (e : Envelope) : pval * pval * pval * pval * pval :=
  (PStr (msg_type_str (message_type e)), PBytes (field2 e), PBytes (field3 e),
   PBytes (field4 e), PBytes (field5 e)).

(** Every field is a Python [bytes] object, at most [sys.maxsize] long. *)
Definition envelope_ok (e : Envelope) : Prop :=
  N.of_nat (length (field2 e)) < 2 ^ 63 /\ N.of_nat (length (field3 e)) < 2 ^ 63 /\
  N.of_nat (length (field4 e)) < 2 ^ 63 /\ N.of_nat (length (field5 e)) < 2 ^ 63.

(** Datagrams that line 56 rejects in CPython: an empty datagram
    ([EOFError]), a strict prefix of an encoded envelope, such as [recvfrom]
    returns for a datagram longer than its buffer ([UnpicklingError]: the
    pickle is truncated), and a pickled tuple of strings and byte strings
    with other than five elements ([ValueError] from the unpacking). *)
Inductive malformed : list byte -> Prop :=
| malformed_empty : malformed []
| malformed_truncated (e : Envelope) (n : nat) :
    (n < length (encode e))%nat -> N.of_nat (length (encode e)) < 2 ^ 64 ->
    malformed (firstn n (encode e))
| malformed_arity (xs : list atom) :
    Forall atom_ok xs -> N.of_nat (length xs) < 2 ^ 32 -> length xs <> 5%nat ->
    malformed (dumps xs).

(** ** Send side: [discovery_loop] and the main loop *)

(** How the main loop ends: still waiting for input, the exit command, or a
    failed [sendto]. *)
Inductive send_end := AwaitingInput | ExitCommand | SendFailed.

(** What ends the input: end of file, or Ctrl-C. *)
Inductive input_end := EndOfInput | Interrupt.

(** How the program terminates: normally, or with an uncaught exception. *)
Inductive exit_status := Finished | Crashed (cls : string).

(** [str.lower()] on the ASCII letters.  Python's Unicode lowering maps no
    non-ASCII character to one of the ASCII letters of "exit" alone, so
    [lower s = "exit"] exactly when [s.lower() == 'exit']. *)
Definition ascii_lower (c : Ascii.ascii) : Ascii.ascii :=
  let n := Ascii.nat_of_ascii c in
  if (65 <=? n)%nat && (n <=? 90)%nat then Ascii.ascii_of_nat (n + 32) else c.

Fixpoint lower (s : string) : string :=
  match s with
  | EmptyString => EmptyString
  | String c s' => String (ascii_lower c) (lower s')
  end.

(** [": " in s] *)
Fixpoint contains_sep (s : string) : bool :=
  match s with
  | EmptyString => false
  | String _ rest => String.prefix ": " s || contains_sep rest
  end.

(** ** Reading the username (lines 37-42)

    [str.isspace] on one code point (given by its UTF-8 encoding): the
    characters of CPython's [_PyUnicode_IsWhitespace], U+0009-U+000D,
    U+001C-U+0020, U+0085, U+00A0, U+1680, U+2000-U+200A, U+2028, U+2029,
    U+202F, U+205F and U+3000. *)
Definition py_whitespace : list (list byte) :=
  [[x09]; [x0a]; [x0b]; [x0c]; [x0d]; [x1c]; [x1d]; [x1e]; [x1f]; [x20];
   [xc2; x85]; [xc2; xa0]; [xe1; x9a; x80];
   [xe2; x80; x80]; [xe2; x80; x81]; [xe2; x80; x82]; [xe2; x80; x83];
   [xe2; x80; x84]; [xe2; x80; x85]; [xe2; x80; x86]; [xe2; x80; x87];
   [xe2; x80; x88]; [xe2; x80; x89]; [xe2; x80; x8a];
   [xe2; x80; xa8]; [xe2; x80; xa9]; [xe2; x80; xaf]; [xe2; x81; x9f];
   [xe3; x80; x80]].

Definition py_isspace (c : string) : bool :=
  bool_decide (String.list_byte_of_string c ∈ py_whitespace).

Fixpoint lstrip_chars (cs : list string) : list string :=
  match cs with
  | [] => []
  | c :: cs' => if py_isspace c then lstrip_chars cs' else cs
  end.

(** [str.strip()]: whitespace code points removed at both ends. *)
Definition strip (s : string) : string :=
  String.concat "" (reverse (lstrip_chars (reverse (lstrip_chars (utf8_chars s))))).

(** [username = input(...).strip()]; [if not username: ... sys.exit(1)]:
    [None] is the exit, [Some username] the client going on. *)
Definition username_of_input (line : string) : option string :=
  let username := strip line in
  if String.eqb username "" then None else Some username.

Section Sender.

Variable username : string.

(** Modelled from the spec: [crypto_utils.pack_data(data, sign=False)],
    the Crypto Provider's encryption: [(ciphertext, nonce)]. *)
Variable pack_data_nosign : list byte -> list byte * list byte.

(** Modelled from the spec: [crypto_utils.pack_data(data)] (signing):
    [(ciphertext, nonce, signature)]. *)
Variable pack_data_sign : list byte -> list byte * list byte * list byte.

(** Modelled from the spec: [crypto_utils.get_ed_public_key()]. *)
Variable get_ed_public_key : list byte.

(** Modelled from the spec: [config.NULL_BYTE], the placeholder field. *)
Variable NULL_BYTE : list byte.

(** Whether the Transport's [sendto] succeeds on a payload. *)
Variable sendto_ok : list byte -> bool.

(** Lines 119-123: the JOIN announced every 3 seconds. *)
Definition discovery_envelope : Envelope :=
  let '(eu, nu) := pack_data_nosign (String.list_byte_of_string username) in
  let '(ek, nk) := pack_data_nosign get_ed_public_key in
  mk_envelope JOIN eu nu ek nk.

Definition discovery_payload : list byte := encode discovery_envelope.

(** Lines 154-160. *)
Definition chat_payload (raw_message : string) : list byte :=
  let raw_formatted_message := username +:+ ": " +:+ raw_message in
  let '(c, n, s) := pack_data_sign (String.list_byte_of_string raw_formatted_message) in
  encode (mk_envelope CHAT c n s NULL_BYTE).

(** Line 175. *)
Definition leave_payload : list byte :=
  encode (mk_envelope LEAVE (String.list_byte_of_string username) NULL_BYTE NULL_BYTE NULL_BYTE).

(** Lines 146-167, over the lines the user types: the payloads passed to
    [sendto] and how the loop ended. *)
Fixpoint send_loop (inputs : list string) : list (list byte) * send_end :=
  match inputs with
  | [] => ([], AwaitingInput)
  | raw_message :: rest =>
    if String.eqb (lower raw_message) "exit" then ([], ExitCommand)
    else
      let payload := chat_payload raw_message in
      if sendto_ok payload then
        let '(ps, e) := send_loop rest in (payload :: ps, e)
      else ([payload], SendFailed)
  end.

(** Lines 145-177: the payloads passed to [sendto] and how the program ends,
    when the user types [inputs] and then either closes the input
    ([input()] raises [EOFError]) or presses Ctrl-C at the prompt
    ([KeyboardInterrupt]).  Only [KeyboardInterrupt] is caught; after the
    loop the LEAVE notice is sent, and a failing [sendto] there is not
    caught either. *)
Definition main_program (inputs : list string) (term : input_end) : list (list byte) * exit_status :=
  let '(ps, e) := send_loop inputs in
  match e, term with
  | AwaitingInput, EndOfInput => (ps, Crashed "EOFError")
  | _, _ =>
    (ps ++ [leave_payload],
     if sendto_ok leave_payload then Finished else Crashed "OSError")
  end.

End Sender.

(** ** The three threads (lines 135-177)

    [listener_thread] runs [listen_for_messages], [discovery_thread] runs
    [discovery_loop], and the main thread runs the send loop.  They share
    the module globals: [username] and [client_socket] are only read, and
    [known_peers] is read and written by [listen_for_messages] alone.  A
    step of a thread is one iteration of its loop; its [sendto] puts a
    payload on the socket. *)

Inductive thread_step :=
| ReceiveStep (ev : recv_event)     (* listener_thread, on what recvfrom gives *)
| DiscoveryStep                     (* discovery_thread *)
| MainStep (raw_message : string).  (* main thread, on a typed line *)

Record world {key : Type} := mk_world {
  listener : loop_res key;          (* known_peers and the listener's output *)
  discovering : bool;               (* discovery_thread still in its loop *)
  sending : bool;                   (* main thread still in its loop *)
  sent : list (list byte)           (* payloads passed to sendto *)
}.
Arguments world : clear implicits.

Section Threads.

Context {key : Type}.
Variable username : string.
Variable unpack_data : pval -> pval -> option string.
Variable unpack_key : pval -> pval -> option key.
Variable verify_signature : key -> pval -> list byte -> bool.
Variable pack_data_nosign : list byte -> list byte * list byte.
Variable pack_data_sign : list byte -> list byte * list byte * list byte.
Variable get_ed_public_key : list byte.
Variable NULL_BYTE : list byte.
Variable sendto_ok : list byte -> bool.

(** One step of one thread.  A failing [sendto] ends the discovery loop (its
    [except Exception] breaks) and the send loop ([except socket.error]
    breaks); the exit command ends the send loop. *)
Definition world_step (w : world key) (t : thread_step) : world key :=
  match t with
  | ReceiveStep ev =>
    mk_world key (recv_step username unpack_data unpack_key verify_signature (listener w) ev)
             (discovering w) (sending w) (sent w)
  | DiscoveryStep =>
    if discovering w then
      let payload := discovery_payload username pack_data_nosign get_ed_public_key in
      mk_world key (listener w) (sendto_ok payload) (sending w) (sent w ++ [payload])
    else w
  | MainStep raw_message =>
    if sending w then
      if String.eqb (lower raw_message) "exit" then
        mk_world key (listener w) (discovering w) false (sent w)
      else
        let payload := chat_payload username pack_data_sign NULL_BYTE raw_message in
        mk_world key (listener w) (discovering w) (sendto_ok payload) (sent w ++ [payload])
    else w
  end.

(** The program under one interleaving of the threads' steps. *)
Definition run_threads (sched : list thread_step) (w : world key) : world key :=
  fold_left world_step sched w.

End Threads.

(** The datagrams the listener thread receives in an interleaving, in order. *)
Definition receive_events (sched : list thread_step) : list recv_event :=
  omap (fun t => match t with ReceiveStep ev => Some ev | _ => None end) sched.

(** ** A concrete crypto provider, for evaluating the code on examples

    Keys are byte strings, encryption is the identity, and a signature is
    the signer's key followed by the message. *)
Module Toy.

Definition pk_alice : list byte := [x01; x02].

Definition unpack_data (c _ : pval) : option string :=
  match c with PBytes b => Some (String.string_of_list_byte b) | _ => None end.

Definition unpack_key (c _ : pval) : option (list byte) :=
  match c with PBytes b => Some b | _ => None end.

Definition verify_signature (k : list byte) (sig : pval) (m : list byte) : bool :=
  match sig with PBytes s => bool_decide (s = k ++ m) | _ => false end.

Definition pack_data_nosign (b : list byte) : list byte * list byte := (b, []).

Definition pack_data_sign (b : list byte) : list byte * list byte * list byte :=
  (b, [], pk_alice ++ b).

Definition st0 : state (list byte) := mk_state _ ∅ [].

(** The bytes [b"CHAT"]. *)
Definition bytes_CHAT : list byte := String.list_byte_of_string "CHAT".

Definition dir_alice : gmap string (list byte) := {[ "alice" := pk_alice ]}.

(** A JOIN for "alice" with another key, an error, and a LEAVE for "carol". *)
Definition pinned_events : list recv_event :=
  [RecvOK (encode (mk_envelope JOIN (String.list_byte_of_string "alice") [] [x09] []));
   RecvErr EBADF;
   RecvOK (encode (mk_envelope LEAVE (String.list_byte_of_string "carol") [] [] []))].

End Toy.

(** * Properties *)

(** ** Examples *)

Example loads_empty : loads [] = None.
Proof. reflexivity. Qed.

Example loads_dumps_leave :
  loads (dumps [AStr "LEAVE"; ABytes [x61]; ABytes []; ABytes []; ABytes []])
  = Some (PTuple [PStr "LEAVE"; PBytes [x61]; PBytes []; PBytes []; PBytes []]).
Proof. reflexivity. Qed.

Example dumps_leave_bytes :
  dumps [AStr "LEAVE"; ABytes [x61]; ABytes []; ABytes []; ABytes []]
  = [x80; x04; x95; x17; x00; x00; x00; x00; x00; x00; x00;
     x28; x8c; x05; x4c; x45; x41; x56; x45; x94; x43; x01; x61; x94;
     x43; x00; x94; x68; x02; x68; x02; x74; x94; x2e].
Proof. reflexivity. Qed.

Example split_head_chat : split_head "alice: hi: there" = "alice".
Proof. reflexivity. Qed.

Example split_head_nosep : split_head "alice" = "alice".
Proof. reflexivity. Qed.

Example lower_EXIT : lower "EXIT" = "exit".
Proof. reflexivity. Qed.

Example lower_Exit : lower "Exit" = "exit".
Proof. reflexivity. Qed.

Example decode_wrong_arity : decode_envelope (dumps [AStr "CHAT"; ABytes []]) = None.
Proof. reflexivity. Qed.

(** A LEAVE as Python 3.0-3.7 pickle it: protocol 3, memo by BINPUT. *)
Example decode_protocol3_leave :
  decode_envelope [x80; x03; x28; x58; x05; x00; x00; x00; x4c; x45; x41; x56; x45; x71; x00;
                   x43; x05; x61; x6c; x69; x63; x65; x71; x01; x43; x01; x00; x71; x02;
                   x68; x02; x68; x02; x74; x71; x03; x2e]
  = Some (PStr "LEAVE", PBytes (String.list_byte_of_string "alice"),
          PBytes [x00], PBytes [x00], PBytes [x00]).
Proof. reflexivity. Qed.

(** A message type '\ud800' cannot be printed, and the loop ends. *)
Example unknown_surrogate_type :
  listen "bob" Toy.unpack_data Toy.unpack_key Toy.verify_signature
    [RecvOK (dumps [AStr (String.string_of_list_byte [xed; xa0; x80]);
                    ABytes []; ABytes []; ABytes []; ABytes []])] Toy.st0
  = Exited (emit Toy.st0 (ShowRecvError "UnicodeEncodeError")).
Proof. vm_compute. reflexivity. Qed.

Example decode_truncated :
  decode_envelope (firstn 20 (encode (mk_envelope LEAVE [x61] [] [] []))) = None.
Proof. reflexivity. Qed.

(** ** Round trip of the codec *)

Lemma to_N_byte_of_N (n : N) : Byte.to_N (byte_of_N n) = n mod 256.
Proof.
  unfold byte_of_N. destruct (Byte.of_N (n mod 256)) as [b|] eqn:E.
  - by apply Byte.to_of_N in E.
  - apply Byte.of_N_None_iff in E. pose proof (N.mod_lt n 256). lia.
Qed.

Lemma le_value_le_bytes (k : nat) (n : N) :
  le_value (le_bytes k n) = n mod 256 ^ N.of_nat k.
Proof.
  revert n. induction k as [|k IH]; intros n; simpl.
  - by rewrite N.mod_1_r.
  - rewrite IH, to_N_byte_of_N, Nat2N.inj_succ, N.pow_succ_r'.
    rewrite N.Div0.mod_mul_r. reflexivity.
Qed.

Lemma length_le_bytes (k : nat) (n : N) : length (le_bytes k n) = k.
Proof. revert n. induction k; simpl; auto. Qed.

Lemma take_bytes_app (b r : list byte) : take_bytes (length b) (b ++ r) = Some (b, r).
Proof.
  unfold take_bytes. rewrite length_app, (proj2 (Nat.leb_le _ _)) by lia.
  by rewrite take_app_length, drop_app_length.
Qed.

Lemma take_bytes_le (k : nat) (n : N) (r : list byte) :
  take_bytes k (le_bytes k n ++ r) = Some (le_bytes k n, r).
Proof.
  rewrite <- (take_bytes_app (le_bytes k n) r), length_le_bytes. reflexivity.
Qed.

Lemma read_counted_le (k : nat) (b r : list byte) :
  N.of_nat (length b) < 256 ^ N.of_nat k ->
  read_counted k (le_bytes k (N.of_nat (length b)) ++ b ++ r) = Some (b, r).
Proof.
  intros Hlt. unfold read_counted.
  rewrite take_bytes_le, le_value_le_bytes, N.mod_small by exact Hlt.
  by rewrite Nat2N.id, take_bytes_app.
Qed.

Lemma memo_index_spec (x : atom) (em : list atom) (i : nat) :
  memo_index x em = Some i -> nth_error em i = Some x /\ (i < length em)%nat.
Proof.
  revert i. induction em as [|y em IH]; intros i; simpl; [discriminate|].
  case_decide; subst.
  - intros [= <-]. split; [done | lia].
  - destruct (memo_index x em) as [j|] eqn:E; [|discriminate].
    intros [= <-]. destruct (IH j eq_refl). simpl. split; [done | lia].
Qed.

Lemma load_unicode_step (op : byte) (k fuel : nat) (b r : list byte)
    (stk : list pval) (meta : list (list pval)) (memo : list pval) :
  match op with x8c => k = 1%nat | x58 => k = 4%nat | x8d => k = 8%nat | _ => False end ->
  N.of_nat (length b) < 256 ^ N.of_nat k ->
  load (S fuel) (op :: le_bytes k (N.of_nat (length b)) ++ b ++ r) stk meta memo
  = match str_of_data b with
    | Some v => load fuel r (v :: stk) meta memo
    | None => None
    end.
Proof.
  intros Hop Hlt.
  destruct op; try contradiction Hop; subst k; cbn [load];
    rewrite read_counted_le by exact Hlt; reflexivity.
Qed.

Lemma load_bytes_step (op : byte) (k fuel : nat) (b r : list byte)
    (stk : list pval) (meta : list (list pval)) (memo : list pval) :
  match op with x43 => k = 1%nat | x42 => k = 4%nat | x8e => k = 8%nat | _ => False end ->
  N.of_nat (length b) < 256 ^ N.of_nat k ->
  load (S fuel) (op :: le_bytes k (N.of_nat (length b)) ++ b ++ r) stk meta memo
  = load fuel r (PBytes b :: stk) meta memo.
Proof.
  intros Hop Hlt.
  destruct op; try contradiction Hop; subst k; cbn [load];
    rewrite read_counted_le by exact Hlt; reflexivity.
Qed.

(** One opcode with its operand decodes one element. *)
Lemma write_atom_step (x : atom) (fuel : nat) (r : list byte)
    (stk : list pval) (meta : list (list pval)) (memo : list pval) :
  atom_ok x ->
  load (S fuel) (write_atom x ++ r) stk meta memo = load fuel r (atom_val x :: stk) meta memo.
Proof.
  intros Hok; destruct x as [s|b]; cbn [write_atom atom_val atom_ok] in *.
  - destruct Hok as [Hv Hsz].
    set (bs := String.list_byte_of_string s) in *.
    assert (Hstr : str_of_data bs = Some (PStr s)).
    { unfold str_of_data. rewrite Hv. unfold bs.
      by rewrite String.string_of_list_byte_of_string. }
    destruct (N.of_nat (length bs) <=? 255) eqn:H1;
      [|destruct (4294967295 <? N.of_nat (length bs)) eqn:H2].
    + apply N.leb_le in H1.
      change ((x8c :: byte_of_N (N.of_nat (length bs)) :: bs) ++ r)
        with (x8c :: le_bytes 1 (N.of_nat (length bs)) ++ bs ++ r).
      rewrite load_unicode_step, Hstr by (simpl; lia). reflexivity.
    + rewrite <- app_comm_cons, <- app_assoc.
      rewrite load_unicode_step, Hstr by (simpl; lia). reflexivity.
    + apply N.ltb_ge in H2. rewrite <- app_comm_cons, <- app_assoc.
      rewrite load_unicode_step, Hstr by (simpl; lia). reflexivity.
  - destruct (N.of_nat (length b) <=? 255) eqn:H1;
      [|destruct (4294967295 <? N.of_nat (length b)) eqn:H2].
    + apply N.leb_le in H1.
      change ((x43 :: byte_of_N (N.of_nat (length b)) :: b) ++ r)
        with (x43 :: le_bytes 1 (N.of_nat (length b)) ++ b ++ r).
      rewrite load_bytes_step by (simpl; lia). reflexivity.
    + rewrite <- app_comm_cons, <- app_assoc.
      rewrite load_bytes_step by (simpl; lia). reflexivity.
    + apply N.ltb_ge in H2. rewrite <- app_comm_cons, <- app_assoc.
      rewrite load_bytes_step by (simpl; lia). reflexivity.
Qed.

(** Decoding the bytes of one saved element pushes it (and memoises it). *)
Lemma load_save_atom (fuel : nat) (em : list atom) (x : atom) (rest : list byte)
    (stk : list pval) (meta : list (list pval)) :
  atom_ok x -> N.of_nat (length em) < 2 ^ 32 ->
  load (atom_ops em x + fuel) (fst (save_atom em x) ++ rest) stk meta (map atom_val em)
  = load fuel rest (atom_val x :: stk) meta (map atom_val (snd (save_atom em x))).
Proof.
  intros Hok Hlen. unfold atom_ops, save_atom.
  destruct (memo_index x em) as [i|] eqn:E.
  - destruct (memo_index_spec x em i E) as [Hnth Hi].
    assert (Hnth' : nth_error (map atom_val em) i = Some (atom_val x))
      by (rewrite nth_error_map, Hnth; reflexivity).
    unfold write_get. cbn [fst snd].
    destruct (N.of_nat i <? 256) eqn:Hs.
    + apply N.ltb_lt in Hs. simpl.
      rewrite to_N_byte_of_N, N.mod_small, N.add_0_r, Nat2N.id, Hnth' by lia.
      reflexivity.
    + apply N.ltb_ge in Hs.
      cbn -[le_bytes take_bytes read_counted str_of_data].
      rewrite take_bytes_le, le_value_le_bytes, N.mod_small, Nat2N.id, Hnth'.
      * reflexivity.
      * lia.
  - cbn [fst snd]. rewrite map_app, <- app_assoc.
    change (2 + fuel)%nat with (S (S fuel)).
    rewrite write_atom_step by exact Hok. reflexivity.
Qed.

Lemma save_atom_memo_length (em : list atom) (x : atom) :
  (length (snd (save_atom em x)) <= S (length em))%nat.
Proof.
  unfold save_atom. destruct (memo_index x em); simpl; [lia|].
  rewrite length_app. simpl. lia.
Qed.

Lemma atom_ops_le (em : list atom) (x : atom) :
  (atom_ops em x <= length (fst (save_atom em x)))%nat.
Proof.
  unfold atom_ops, save_atom, write_get.
  destruct (memo_index x em); simpl.
  - destruct (_ <? 256); simpl; lia.
  - rewrite length_app. destruct x; simpl;
      repeat case_match; simpl; lia.
Qed.

Lemma items_ops_le (em : list atom) (xs : list atom) :
  (items_ops em xs <= length (fst (save_items em xs)))%nat.
Proof.
  revert em. induction xs as [|x xs IH]; intros em; simpl; [lia|].
  pose proof (atom_ops_le em x) as Ha.
  destruct (save_atom em x) as [b1 m1] eqn:Es.
  specialize (IH m1). destruct (save_items m1 xs) as [b2 m2] eqn:Ei.
  simpl in *. rewrite length_app. lia.
Qed.

(** Decoding the saved elements pushes all of them, in order. *)
Lemma load_save_items (xs : list atom) (fuel : nat) (em : list atom) (rest : list byte)
    (stk : list pval) (meta : list (list pval)) :
  Forall atom_ok xs -> N.of_nat (length em + length xs) < 2 ^ 32 ->
  load (items_ops em xs + fuel) (fst (save_items em xs) ++ rest) stk meta (map atom_val em)
  = load fuel rest (rev (map atom_val xs) ++ stk) meta (map atom_val (snd (save_items em xs))).
Proof.
  revert fuel em rest stk. induction xs as [|x xs IH]; intros fuel em rest stk Hok Hlen.
  - reflexivity.
  - inversion Hok as [|? ? Hx Hxs]; subst. rewrite length_cons in Hlen.
    pose proof (save_atom_memo_length em x) as Hm.
    pose proof (load_save_atom (items_ops (snd (save_atom em x)) xs + fuel) em x
                  (fst (save_items (snd (save_atom em x)) xs) ++ rest) stk meta Hx
                  ltac:(lia)) as Hstep.
    cbn [items_ops save_items].
    destruct (save_atom em x) as [b1 m1] eqn:Es. simpl in Hstep, Hm.
    destruct (save_items m1 xs) as [b2 m2] eqn:Ei. simpl in Hstep |- *.
    rewrite <- app_assoc, <- Nat.add_assoc, Hstep.
    specialize (IH fuel m1 rest (atom_val x :: stk) Hxs ltac:(lia)).
    rewrite Ei in IH. simpl in IH. rewrite IH.
    by rewrite <- app_assoc.
Qed.

Lemma body_ops_le (xs : list atom) : (body_ops xs <= length (tuple_body xs))%nat.
Proof.
  pose proof (items_ops_le [] xs).
  destruct xs as [|x [|y [|z [|w ws]]]]; unfold body_ops, tuple_body; cbn [length];
    rewrite ?length_app; cbn [length]; lia.
Qed.

Lemma load_body (xs : list atom) (fuel : nat) :
  Forall atom_ok xs -> N.of_nat (length xs) < 2 ^ 32 ->
  load (body_ops xs + S fuel) (tuple_body xs ++ [x2e]) [] [] []
  = Some (PTuple (map atom_val xs)).
Proof.
  intros Hok Hlen.
  pose proof (fun rest stk meta f =>
                load_save_items xs f [] rest stk meta Hok ltac:(simpl; lia)) as Hi.
  destruct xs as [|x [|y [|z [|w ws]]]] eqn:Exs; [reflexivity| | | |];
    rewrite <- Exs in *; unfold body_ops, tuple_body; rewrite Exs; simpl length;
    rewrite <- Exs.
  - rewrite <- app_assoc, <- Nat.add_assoc, Hi. subst xs. reflexivity.
  - rewrite <- app_assoc, <- Nat.add_assoc, Hi. subst xs. reflexivity.
  - rewrite <- app_assoc, <- Nat.add_assoc, Hi. subst xs. reflexivity.
  - cbn [Nat.add load app]. rewrite <- app_assoc, <- Nat.add_assoc, Hi.
    rewrite app_nil_r. cbn [Nat.add app load]. by rewrite rev_involutive.
Qed.

(** [pickle.loads(pickle.dumps(t)) == t] for the tuples the client sends. *)
Lemma loads_dumps (xs : list atom) :
  Forall atom_ok xs -> N.of_nat (length xs) < 2 ^ 32 ->
  loads (dumps xs) = Some (PTuple (map atom_val xs)).
Proof.
  intros Hok Hlen. unfold loads.
  pose proof (body_ops_le xs) as Hle.
  set (body := tuple_body xs ++ [x2e]).
  assert (Hb : (S (body_ops xs) <= length body)%nat)
    by (unfold body; rewrite length_app; simpl; lia).
  unfold dumps. fold body.
  destruct (4 <=? N.of_nat (length body)) eqn:Hf.
  - replace (length ([x80; x04] ++ x95 :: le_bytes 8 (N.of_nat (length body)) ++ body))
      with (S (S (body_ops xs + S (length body - S (body_ops xs) + 9)))).
    2:{ simpl. rewrite ?length_app, ?length_le_bytes. simpl. lia. }
    cbn [app load]. rewrite take_bytes_le, le_value_le_bytes.
    assert (Hm : (N.to_nat (N.of_nat (length body) mod 256 ^ N.of_nat 8) <=? length body)%nat = true).
    { apply Nat.leb_le. pose proof (N.Div0.mod_le (N.of_nat (length body)) (256 ^ N.of_nat 8)).
      lia. }
    rewrite Hm. apply load_body; assumption.
  - replace (length ([x80; x04] ++ body))
      with (S (body_ops xs + S (length body - body_ops xs))).
    2:{ rewrite length_app. simpl. lia. }
    cbn [app load]. apply load_body; assumption.
Qed.



Lemma envelope_atoms_ok (e : Envelope) :
  envelope_ok e -> Forall atom_ok (envelope_atoms e).
Proof.
  intros (H2 & H3 & H4 & H5).
  repeat constructor; try assumption.
  all: destruct (message_type e); reflexivity.
Qed.

Lemma decode_envelope_encode (e : Envelope) :
  envelope_ok e -> decode_envelope (encode e) = Some (envelope_values e).
Proof.
  intros Hok. unfold decode_envelope, encode.
  rewrite loads_dumps; [reflexivity | by apply envelope_atoms_ok | reflexivity].
Qed.

(** ** Truncated datagrams *)

(** An encoded envelope is always framed: its body holds at least 4 bytes. *)
Lemma encode_framed (e : Envelope) :
  exists body, encode e = [x80; x04; x95] ++ le_bytes 8 (N.of_nat (length body)) ++ body /\
    (4 <= length body)%nat.
Proof.
  unfold encode, dumps.
  set (body := tuple_body (envelope_atoms e) ++ [x2e]).
  assert (Hb : (4 <= length body)%nat).
  { unfold body, envelope_atoms. cbn [tuple_body length].
    rewrite length_app. cbn [length]. rewrite length_app. cbn [length]. lia. }
  exists body. split; [|exact Hb].
  rewrite (proj2 (N.leb_le 4 (N.of_nat (length body)))) by lia. reflexivity.
Qed.

(** Every strict prefix of an encoded envelope fails to unpickle: the frame
    header, or the frame, is cut short. *)
Lemma loads_truncated_envelope (e : Envelope) (n : nat) :
  (n < length (encode e))%nat -> N.of_nat (length (encode e)) < 2 ^ 64 ->
  loads (firstn n (encode e)) = None.
Proof.
  destruct (encode_framed e) as (body & He & Hb). rewrite He.
  remember (le_bytes 8 (N.of_nat (length body))) as h eqn:Hh.
  assert (Hlh : length h = 8%nat) by (subst h; apply length_le_bytes).
  rewrite !length_app, Hlh. cbn [length]. intros Hn Hbound.
  destruct n as [|[|[|n']]]; [reflexivity | reflexivity | reflexivity |].
  cbn [app firstn]. unfold loads. cbn [length].
  set (r := take n' (h ++ body)).
  assert (Hl : load (S (S (S (length r)))) (x80 :: x04 :: x95 :: r) [] [] []
               = match take_bytes 8 r with
                 | Some (hh, rest') =>
                   if Nat.leb (N.to_nat (le_value hh)) (length rest')
                   then load (S (length r)) rest' [] [] [] else None
                 | None => None
                 end) by reflexivity.
  rewrite Hl. clear Hl.
  destruct (decide (n' < 8)%nat) as [Hlt|Hge].
  - assert (Hr : r = take n' h).
    { unfold r. rewrite firstn_app, Hlh.
      replace (n' - 8)%nat with 0%nat by lia. by rewrite firstn_O, app_nil_r. }
    unfold take_bytes. rewrite Hr, length_take, Hlh.
    rewrite (proj2 (Nat.leb_gt 8 (Nat.min n' 8))) by lia. reflexivity.
  - assert (Hr : r = h ++ take (n' - 8) body).
    { unfold r. rewrite firstn_app, Hlh, firstn_all2 by lia. reflexivity. }
    rewrite Hr, <- Hlh, take_bytes_app, Hh, le_value_le_bytes, N.mod_small, Nat2N.id.
    + rewrite (proj2 (Nat.leb_gt _ _)); [reflexivity|].
      rewrite length_take, ?length_le_bytes. lia.
    + assert (E : 256 ^ N.of_nat 8 = 2 ^ 64) by reflexivity. rewrite E. lia.
Qed.

Lemma decode_truncated_envelope (e : Envelope) (n : nat) :
  (n < length (encode e))%nat -> N.of_nat (length (encode e)) < 2 ^ 64 ->
  decode_envelope (firstn n (encode e)) = None.
Proof.
  intros Hn Hb. unfold decode_envelope. by rewrite loads_truncated_envelope.
Qed.

(** C6: the Envelope Codec round-trips: unpickling a pickled envelope gives
    back its five values. *)
Theorem codec_roundtrip (e : Envelope) :
  envelope_ok e -> decode_envelope (encode e) = Some (envelope_values e).
Proof.
  intros Hok. unfold decode_envelope, encode.
  rewrite loads_dumps.
  - reflexivity.
  - by apply envelope_atoms_ok.
  - reflexivity.
Qed.

Lemma codec_roundtrip_witness :
  decode_envelope (encode (mk_envelope CHAT [x68; x69] [x00] [x01; x02] []))
  = Some (envelope_values (mk_envelope CHAT [x68; x69] [x00] [x01; x02] [])).
Proof.
  apply codec_roundtrip. repeat split; reflexivity.
Defined.

Section Receiver.

Context {key : Type}.
Variable username : string.
Variable unpack_data : pval -> pval -> option string.
Variable unpack_key : pval -> pval -> option key.
Variable verify_signature : key -> pval -> list byte -> bool.

Abbreviation run := (listen username unpack_data unpack_key verify_signature).
Abbreviation dispatch := (handle username unpack_data unpack_key verify_signature).

(** The datagram branch of [process], through [decode_envelope]. *)
Lemma process_RecvOK (st : state key) (p : list byte) :
  process username unpack_data unpack_key verify_signature st (RecvOK p)
  = match decode_envelope p with
    | None => BRaise (PyErr (match loads p with Some _ => "ValueError" | None => "UnpicklingError" end)) st
    | Some (mt, em, n, s, sn) => dispatch st mt em n s sn
    end.
Proof.
  unfold process, decode_envelope.
  destruct (loads p) as [v|]; [|reflexivity].
  by destruct (unpack5 v) as [[[[[? ?] ?] ?] ?]|].
Qed.

Lemma listen_encode (e : Envelope) (evs : list recv_event) (st : state key) :
  envelope_ok e ->
  run (RecvOK (encode e) :: evs) st
  = match dispatch st (PStr (msg_type_str (message_type e))) (PBytes (field2 e))
                 (PBytes (field3 e)) (PBytes (field4 e)) (PBytes (field5 e)) with
    | BNext st' => run evs st'
    | BRaise (OSErr _) st' => run evs st'
    | BRaise (PyErr cls) st' => Exited (emit st' (ShowRecvError cls))
    end.
Proof.
  intros Hok. cbn [listen]. rewrite process_RecvOK.
  rewrite decode_envelope_encode by exact Hok. reflexivity.
Qed.

(** An [OSError] from [recvfrom] is swallowed. *)
Lemma listen_oserror (e : Z) (evs : list recv_event) (st : state key) :
  run (RecvErr e :: evs) st = run evs st.
Proof. reflexivity. Qed.

(** C1 (as the code has it): a malformed datagram -- empty, truncated, or a
    tuple of the wrong arity -- is not dropped: the exception reaches the
    generic handler, which prints ["Error receiving message: ..."] and
    breaks, so the receive loop ends and the messages after it are never
    processed. *)
Theorem malformed_datagram_ends_loop (p : list byte) (evs : list recv_event) (st : state key) :
  malformed p ->
  exists cls, run (RecvOK p :: evs) st = Exited (emit st (ShowRecvError cls)).
Proof.
  intros Hm. cbn [listen]. rewrite process_RecvOK.
  assert (Hd : decode_envelope p = None).
  { destruct Hm as [|e n Hn Hb|xs Hok Hlen Har].
    - reflexivity.
    - by apply decode_truncated_envelope.
    - unfold decode_envelope. rewrite loads_dumps by assumption.
      destruct xs as [|a [|b [|c [|d [|f [|g xs]]]]]]; try reflexivity.
      contradiction. }
  rewrite Hd. eexists. reflexivity.
Qed.

(** C7 (as the code has it): once shutdown has closed the socket, every
    [recvfrom] raises an [OSError] with errno EBADF; the handler ignores it
    ([pass]) and the loop calls [recvfrom] again.  However many such errors
    it receives, the loop has not terminated and its state is untouched. *)
Theorem ebadf_keeps_looping (n : nat) (st : state key) :
  run (repeat (RecvErr EBADF) n) st = Running st.
Proof.
  induction n as [|n IH]; [reflexivity|].
  cbn [repeat]. rewrite listen_oserror. exact IH.
Qed.

Lemma listen_join (e : Envelope) (evs : list recv_event) (st : state key) (u : string) (k : key) :
  message_type e = JOIN -> envelope_ok e ->
  unpack_data (PBytes (field2 e)) (PBytes (field3 e)) = Some u ->
  unpack_key (PBytes (field4 e)) (PBytes (field5 e)) = Some k ->
  run (RecvOK (encode e) :: evs) st
  = run evs (match known_peers st !! u with
             | None => emit (set_peers st (<[u := k]> (known_peers st)))
                            (Show ("Welcome " +:+ u +:+ " to the chat!"))
             | Some _ => st
             end).
Proof.
  intros Ht Hok Hu Hk. rewrite listen_encode by exact Hok. rewrite Ht.
  unfold handle. cbn [is_str msg_type_str String.eqb Ascii.eqb Bool.eqb negb andb].
  rewrite Hu, Hk. by destruct (known_peers st !! u).
Qed.

Lemma listen_leave (e : Envelope) (evs : list recv_event) (st : state key) (u : string) :
  message_type e = LEAVE -> envelope_ok e -> utf8_decode (field2 e) = Some u ->
  run (RecvOK (encode e) :: evs) st
  = run evs (match known_peers st !! u with
             | Some _ => set_peers (emit st (Show (u +:+ " has left the chat.")))
                                   (delete u (known_peers st))
             | None => emit st (Show (u +:+ " has left the chat."))
             end).
Proof.
  intros Ht Hok Hu. rewrite listen_encode by exact Hok. rewrite Ht.
  unfold handle. cbn [is_str msg_type_str String.eqb Ascii.eqb Bool.eqb negb andb].
  rewrite Hu. cbn [known_peers emit]. by destruct (known_peers st !! u).
Qed.

Lemma listen_chat (e : Envelope) (evs : list recv_event) (st : state key) :
  message_type e = CHAT -> envelope_ok e ->
  run (RecvOK (encode e) :: evs) st
  = match unpack_data (PBytes (field2 e)) (PBytes (field3 e)) with
    | None => Exited (emit st (ShowRecvError "CryptoError"))
    | Some raw =>
      run evs (if negb (startswith raw (username +:+ ": ")) then
                 match known_peers st !! split_head raw with
                 | Some pk =>
                   if verify_signature pk (PBytes (field4 e)) (String.list_byte_of_string raw)
                   then emit st (Show raw) else st
                 | None => st
                 end
               else st)
    end.
Proof.
  intros Ht Hok. rewrite listen_encode by exact Hok. rewrite Ht.
  unfold handle. cbn [is_str msg_type_str String.eqb Ascii.eqb Bool.eqb negb andb].
  destruct (unpack_data _ _) as [raw|]; [|reflexivity].
  destruct (negb _); [|reflexivity].
  destruct (known_peers st !! _); [|reflexivity].
  by destruct (verify_signature _ _ _).
Qed.

(** C3, against the code: the filter of line 63, commented "Ignoring own
    messages", tests whether the plaintext starts with the local username
    followed by ": ", while line 65 takes the sender to be the text before
    the first ": ".  They disagree when the local username contains ": "
    (line 38 keeps it): a CHAT whose sender is another peer, known and with
    a signature that verifies, is dropped when its plaintext starts with
    "<local username>: "; receiving it changes nothing. *)
Theorem own_prefix_hides_peer_chat (e : Envelope) (evs : list recv_event) (st : state key)
    (raw : string) (pk : key) :
  message_type e = CHAT -> envelope_ok e ->
  unpack_data (PBytes (field2 e)) (PBytes (field3 e)) = Some raw ->
  startswith raw (username +:+ ": ") = true ->
  split_head raw <> username ->
  known_peers st !! split_head raw = Some pk ->
  verify_signature pk (PBytes (field4 e)) (String.list_byte_of_string raw) = true ->
  run (RecvOK (encode e) :: evs) st = run evs st.
Proof.
  intros Ht Hok Hu Hs _ _ _. rewrite listen_chat by assumption.
  rewrite Hu, Hs. reflexivity.
Qed.

(** C4: a JOIN for a user [u] (not the local one) whose key decrypts to [k]
    records [u ↦ k]; a later JOIN for [u] with any key leaves the entry as
    it is. *)
Theorem join_records_first_key (st : state key) (u : string) (k k' : key) (e1 e2 : Envelope) :
  u <> username ->
  known_peers st !! u = None ->
  message_type e1 = JOIN -> envelope_ok e1 ->
  unpack_data (PBytes (field2 e1)) (PBytes (field3 e1)) = Some u ->
  unpack_key (PBytes (field4 e1)) (PBytes (field5 e1)) = Some k ->
  message_type e2 = JOIN -> envelope_ok e2 ->
  unpack_data (PBytes (field2 e2)) (PBytes (field3 e2)) = Some u ->
  unpack_key (PBytes (field4 e2)) (PBytes (field5 e2)) = Some k' ->
  exists st1 st2,
    run [RecvOK (encode e1)] st = Running st1 /\ known_peers st1 !! u = Some k /\
    run [RecvOK (encode e1); RecvOK (encode e2)] st = Running st2 /\
    known_peers st2 = known_peers st1.
Proof.
  intros _ Hnew Ht1 Hok1 Hu1 Hk1 Ht2 Hok2 Hu2 Hk2.
  rewrite !(listen_join e1 _ st u k) by assumption. rewrite Hnew.
  set (st1 := emit _ _).
  rewrite (listen_join e2 _ st1 u k') by assumption.
  assert (H1 : known_peers st1 !! u = Some k)
    by (cbn [st1 emit set_peers known_peers]; apply lookup_insert_eq).
  rewrite H1. exists st1, st1. repeat split; assumption || reflexivity.
Qed.

(** C5: a LEAVE naming [u] removes [u] from the directory, and leaves the
    directory as it was when [u] was not in it. *)
Theorem leave_removes_peer (st : state key) (e : Envelope) (u : string) :
  message_type e = LEAVE -> envelope_ok e -> utf8_decode (field2 e) = Some u ->
  exists st', run [RecvOK (encode e)] st = Running st' /\
    known_peers st' !! u = None /\
    (known_peers st !! u = None -> known_peers st' = known_peers st).
Proof.
  intros Ht Hok Hu. rewrite (listen_leave e _ st u) by assumption.
  destruct (known_peers st !! u) eqn:E.
  - eexists. split; [reflexivity|]. split.
    + cbn [set_peers known_peers]. apply lookup_delete_eq.
    + discriminate.
  - eexists. split; [reflexivity|]. split; [exact E | reflexivity].
Qed.

(** C9: processing a LEAVE naming [u] prints ["<u> has left the chat."]
    whether or not [u] is in the directory. *)
Theorem leave_always_announced (st : state key) (e : Envelope) (u : string) :
  message_type e = LEAVE -> envelope_ok e -> utf8_decode (field2 e) = Some u ->
  exists st', run [RecvOK (encode e)] st = Running st' /\
    out st' = out st ++ [Show (u +:+ " has left the chat.")].
Proof.
  intros Ht Hok Hu. rewrite (listen_leave e _ st u) by assumption.
  eexists. split; [reflexivity|].
  by destruct (known_peers st !! u).
Qed.

Variable pack_data_nosign : list byte -> list byte * list byte.
Variable get_ed_public_key : list byte.

Abbreviation own_join := (discovery_envelope username pack_data_nosign get_ed_public_key).

Lemma discovery_envelope_type : message_type own_join = JOIN.
Proof.
  unfold discovery_envelope.
  destruct (pack_data_nosign _), (pack_data_nosign get_ed_public_key). reflexivity.
Qed.

(** C2, against the code: multicast delivers the client's own periodic JOIN
    back to it, and nothing in the JOIN branch compares the announced name
    with the local username (unlike the CHAT branch).  With any crypto
    provider that decrypts what it encrypted, receiving its own JOIN puts
    the local username into [known_peers] and greets it. *)
Theorem own_join_trusts_self (st : state key) (k : key) :
  envelope_ok own_join ->
  unpack_data (PBytes (field2 own_join)) (PBytes (field3 own_join)) = Some username ->
  unpack_key (PBytes (field4 own_join)) (PBytes (field5 own_join)) = Some k ->
  known_peers st !! username = None ->
  exists st', run [RecvOK (discovery_payload username pack_data_nosign get_ed_public_key)] st
              = Running st' /\
    known_peers st' !! username = Some k /\
    out st' = out st ++ [Show ("Welcome " +:+ username +:+ " to the chat!")].
Proof.
  intros Hok Hu Hk Hnew. unfold discovery_payload.
  rewrite (listen_join own_join _ st username k) by
    (exact discovery_envelope_type || assumption).
  rewrite Hnew. eexists. split; [reflexivity|]. split; [|reflexivity].
  cbn [emit set_peers known_peers]. apply lookup_insert_eq.
Qed.

End Receiver.

Lemma malformed_datagram_ends_loop_witness :
  malformed (dumps [AStr "LEAVE"; ABytes [x61]]) /\
  exists cls,
    listen "bob" Toy.unpack_data Toy.unpack_key Toy.verify_signature
      [RecvOK (dumps [AStr "LEAVE"; ABytes [x61]]);
       RecvOK (encode (mk_envelope LEAVE [x61] [] [] []))] Toy.st0
    = Exited (emit Toy.st0 (ShowRecvError cls)).
Proof.
  assert (Hm : malformed (dumps [AStr "LEAVE"; ABytes [x61]])).
  { apply malformed_arity; [repeat constructor; reflexivity | reflexivity | discriminate]. }
  split; [exact Hm|].
  apply malformed_datagram_ends_loop. exact Hm.
Defined.

(** C1 is refuted: a truncated (empty) datagram is not dropped while the
    loop continues; the loop stops, and the LEAVE that follows it is never
    processed (on its own it would print a departure notice). *)
Lemma malformed_datagram_counterexample :
  listen "bob" Toy.unpack_data Toy.unpack_key Toy.verify_signature
    [RecvOK []; RecvOK (encode (mk_envelope LEAVE [x61] [] [] []))] Toy.st0
  = Exited (mk_state _ ∅ [ShowRecvError "UnpicklingError"]) /\
  listen "bob" Toy.unpack_data Toy.unpack_key Toy.verify_signature
    [RecvOK (encode (mk_envelope LEAVE [x61] [] [] []))] Toy.st0
  = Running (mk_state _ ∅ [Show "a has left the chat."]).
Proof. split; vm_compute; reflexivity. Qed.

(** C7 is refuted: after the socket is closed every [recvfrom] raises EBADF,
    and the loop does not terminate on it; it keeps iterating. *)
Lemma ebadf_counterexample :
  listen "bob" Toy.unpack_data Toy.unpack_key Toy.verify_signature
    (repeat (RecvErr EBADF) 1000) Toy.st0 = Running Toy.st0.
Proof. vm_compute. reflexivity. Qed.

Lemma own_join_trusts_self_witness :
  exists st',
    listen "alice" Toy.unpack_data Toy.unpack_key Toy.verify_signature
      [RecvOK (discovery_payload "alice" Toy.pack_data_nosign Toy.pk_alice)] Toy.st0
    = Running st' /\
    known_peers st' !! "alice" = Some Toy.pk_alice /\
    out st' = out Toy.st0 ++ [Show ("Welcome " +:+ "alice" +:+ " to the chat!")].
Proof.
  apply (own_join_trusts_self "alice" Toy.unpack_data Toy.unpack_key Toy.verify_signature
           Toy.pack_data_nosign Toy.pk_alice Toy.st0 Toy.pk_alice).
  - repeat split; reflexivity.
  - reflexivity.
  - reflexivity.
  - reflexivity.
Defined.

Lemma own_prefix_hides_peer_chat_witness :
  split_head "a: b: x" = "a" /\
  listen "a: b" Toy.unpack_data Toy.unpack_key Toy.verify_signature
    [RecvOK (encode (mk_envelope CHAT (String.list_byte_of_string "a: b: x") []
                       (Toy.pk_alice ++ String.list_byte_of_string "a: b: x") []))]
    (mk_state _ {[ "a" := Toy.pk_alice ]} [])
  = listen "a: b" Toy.unpack_data Toy.unpack_key Toy.verify_signature []
      (mk_state _ {[ "a" := Toy.pk_alice ]} []).
Proof.
  split; [reflexivity|].
  apply (own_prefix_hides_peer_chat "a: b" Toy.unpack_data Toy.unpack_key Toy.verify_signature
           (mk_envelope CHAT (String.list_byte_of_string "a: b: x") []
              (Toy.pk_alice ++ String.list_byte_of_string "a: b: x") [])
           [] (mk_state _ {[ "a" := Toy.pk_alice ]} []) "a: b: x" Toy.pk_alice).
  - reflexivity.
  - repeat split; reflexivity.
  - reflexivity.
  - reflexivity.
  - discriminate.
  - reflexivity.
  - reflexivity.
Defined.

Lemma join_records_first_key_witness :
  exists st1 st2,
    listen "bob" Toy.unpack_data Toy.unpack_key Toy.verify_signature
      [RecvOK (encode (mk_envelope JOIN (String.list_byte_of_string "alice") [] Toy.pk_alice []))]
      Toy.st0 = Running st1 /\
    known_peers st1 !! "alice" = Some Toy.pk_alice /\
    listen "bob" Toy.unpack_data Toy.unpack_key Toy.verify_signature
      [RecvOK (encode (mk_envelope JOIN (String.list_byte_of_string "alice") [] Toy.pk_alice []));
       RecvOK (encode (mk_envelope JOIN (String.list_byte_of_string "alice") [] [x09] []))]
      Toy.st0 = Running st2 /\
    known_peers st2 = known_peers st1.
Proof.
  apply (join_records_first_key "bob" Toy.unpack_data Toy.unpack_key Toy.verify_signature
           Toy.st0 "alice" Toy.pk_alice [x09]
           (mk_envelope JOIN (String.list_byte_of_string "alice") [] Toy.pk_alice [])
           (mk_envelope JOIN (String.list_byte_of_string "alice") [] [x09] []));
    try reflexivity; try (repeat split; reflexivity).
  discriminate.
Defined.

Lemma leave_removes_peer_witness :
  exists st',
    listen "bob" Toy.unpack_data Toy.unpack_key Toy.verify_signature
      [RecvOK (encode (mk_envelope LEAVE (String.list_byte_of_string "alice") [] [] []))]
      (mk_state _ {[ "alice" := Toy.pk_alice ]} []) = Running st' /\
    known_peers st' !! "alice" = None /\
    (known_peers (mk_state _ {[ "alice" := Toy.pk_alice ]} []) !! "alice" = None ->
     known_peers st' = known_peers (mk_state _ {[ "alice" := Toy.pk_alice ]} [])).
Proof.
  apply (leave_removes_peer "bob" Toy.unpack_data Toy.unpack_key Toy.verify_signature
           (mk_state _ {[ "alice" := Toy.pk_alice ]} [])
           (mk_envelope LEAVE (String.list_byte_of_string "alice") [] [] []) "alice");
    try reflexivity; repeat split; reflexivity.
Defined.

Lemma leave_always_announced_witness :
  exists st',
    listen "bob" Toy.unpack_data Toy.unpack_key Toy.verify_signature
      [RecvOK (encode (mk_envelope LEAVE (String.list_byte_of_string "carol") [] [] []))]
      Toy.st0 = Running st' /\
    out st' = out Toy.st0 ++ [Show ("carol" +:+ " has left the chat.")].
Proof.
  apply (leave_always_announced "bob" Toy.unpack_data Toy.unpack_key Toy.verify_signature
           Toy.st0 (mk_envelope LEAVE (String.list_byte_of_string "carol") [] [] []) "carol");
    try reflexivity; repeat split; reflexivity.
Defined.

Section SendProperties.

Variable username : string.
Variable pack_data_sign : list byte -> list byte * list byte * list byte.
Variable NULL_BYTE : list byte.
Variable sendto_ok : list byte -> bool.

Abbreviation send := (send_loop username pack_data_sign NULL_BYTE sendto_ok).
Abbreviation chat := (chat_payload username pack_data_sign NULL_BYTE).

(** C10: the typed lines before the first one whose lowercase form is
    "exit" are each encrypted, signed and sent as a CHAT (while [sendto]
    succeeds), whatever they contain; the exit line ends the loop and is not
    sent, and nothing after it is read. *)
Theorem exit_command_ends_sending (pre : list string) (raw : string) (post : list string) :
  Forall (fun r => lower r <> "exit" /\ sendto_ok (chat r) = true) pre ->
  lower raw = "exit" ->
  send (pre ++ raw :: post) = (map chat pre, ExitCommand).
Proof.
  intros Hpre Hraw. induction Hpre as [|r pre [Hr Hs] _ IH]; cbn [app send_loop map].
  - by rewrite Hraw.
  - destruct (String.eqb_spec (lower r) "exit") as [E|_]; [contradiction|].
    rewrite Hs, IH. reflexivity.
Qed.

End SendProperties.

Lemma exit_command_ends_sending_witness :
  send_loop "alice" Toy.pack_data_sign [] (fun _ => true)
    ["hello"; "exit now"; "exiting"; "EXIT"; "after"]
  = (map (chat_payload "alice" Toy.pack_data_sign []) ["hello"; "exit now"; "exiting"],
     ExitCommand).
Proof.
  apply (exit_command_ends_sending "alice" Toy.pack_data_sign [] (fun _ => true)
           ["hello"; "exit now"; "exiting"] "EXIT" ["after"]).
  - repeat constructor; discriminate.
  - reflexivity.
Defined.

(** * Further properties of the code *)

(** ** String helpers *)

Lemma append_cons (c : Ascii.ascii) (s t : string) : String c s +:+ t = String c (s +:+ t).
Proof. reflexivity. Qed.

Lemma append_sep (r : string) : ": " +:+ r = String ":" (String " " r).
Proof. reflexivity. Qed.

Lemma prefix_nil (s : string) : String.prefix "" s = true.
Proof. by destruct s. Qed.

Lemma prefix_cons (a b : Ascii.ascii) (s t : string) :
  String.prefix (String a s) (String b t) = true -> a = b /\ String.prefix s t = true.
Proof. simpl. destruct (Ascii.ascii_dec a b); [auto | discriminate]. Qed.

(** Whether [s] starts with ": " depends on its first two characters only. *)
Lemma prefix_sep_two (c c' : Ascii.ascii) (s t : string) :
  String.prefix ": " (String c (String c' s)) = String.prefix ": " (String c (String c' t)).
Proof.
  cbn [String.prefix].
  destruct (Ascii.ascii_dec ":" c), (Ascii.ascii_dec " " c'); try reflexivity.
  by rewrite !prefix_nil.
Qed.

Lemma prefix_append (p r : string) : String.prefix p (p +:+ r) = true.
Proof.
  induction p as [|c p IH]; [apply prefix_nil|].
  rewrite append_cons. cbn [String.prefix]. destruct (Ascii.ascii_dec c c); [exact IH | contradiction].
Qed.

Lemma contains_sep_cons (c : Ascii.ascii) (s : string) :
  contains_sep (String c s) = false ->
  String.prefix ": " (String c s) = false /\ contains_sep s = false.
Proof. cbn [contains_sep]. apply orb_false_iff. Qed.

(** The text before the first ": " of "<a>: <r>" is [a] when [a] has none. *)
Lemma split_head_sender (a r : string) :
  contains_sep a = false -> split_head (a +:+ ": " +:+ r) = a.
Proof.
  induction a as [|c a IH]; intros Ha.
  - change (split_head (String ":" (String " " r)) = ""). cbn [split_head String.prefix].
    destruct (Ascii.ascii_dec ":" ":"); [|contradiction].
    destruct (Ascii.ascii_dec " " " "); [|contradiction].
    by rewrite prefix_nil.
  - apply contains_sep_cons in Ha as [Hp Ha].
    rewrite append_cons. cbn [split_head].
    assert (Hq : String.prefix ": " (String c (a +:+ ": " +:+ r)) = false).
    { destruct a as [|c' a'].
      - change (String.prefix ": " (String c (String ":" (String " " r))) = false).
        cbn [String.prefix]. destruct (Ascii.ascii_dec ":" c); [|reflexivity].
        destruct (Ascii.ascii_dec " " ":") as [E|]; [cbv in E; discriminate E | reflexivity].
      - rewrite append_cons, (prefix_sep_two c c' _ a'). exact Hp. }
    rewrite Hq, IH by exact Ha. reflexivity.
Qed.

(** "<b>: " starts "<a>: <r>" only when [a = b], for names without ": ". *)
Lemma prefix_names (a b r : string) :
  contains_sep a = false -> contains_sep b = false ->
  String.prefix (b +:+ ": ") (a +:+ ": " +:+ r) = true -> a = b.
Proof.
  revert b. induction a as [|c a IH]; intros b Ha Hb H.
  - destruct b as [|d b]; [reflexivity|].
    rewrite append_cons, append_sep in H. apply prefix_cons in H as [-> H].
    destruct b as [|e b]; [apply prefix_cons in H as [E _]; cbv in E; discriminate E|].
    rewrite append_cons in H. apply prefix_cons in H as [-> _].
    apply contains_sep_cons in Hb as [Hb _]. cbn [String.prefix] in Hb.
    destruct (Ascii.ascii_dec ":" ":"); [|contradiction].
    destruct (Ascii.ascii_dec " " " "); [|contradiction].
    by rewrite prefix_nil in Hb.
  - apply contains_sep_cons in Ha as [Hpa Ha].
    destruct b as [|d b].
    + rewrite append_cons, append_sep in H. apply prefix_cons in H as [<- H].
      destruct a as [|e a]; [apply prefix_cons in H as [E _]; cbv in E; discriminate E|].
      rewrite append_cons in H. apply prefix_cons in H as [<- _].
      cbn [String.prefix] in Hpa.
      destruct (Ascii.ascii_dec ":" ":"); [|contradiction].
      destruct (Ascii.ascii_dec " " " "); [|contradiction].
      by rewrite prefix_nil in Hpa.
    + apply contains_sep_cons in Hb as [_ Hb].
      rewrite !append_cons in H. apply prefix_cons in H as [<- H].
      f_equal. by apply IH.
Qed.

(** ** The receive loop over any datagrams *)

Section ReceiverFacts.

Context {key : Type}.
Variable username : string.
Variable unpack_data : pval -> pval -> option string.
Variable unpack_key : pval -> pval -> option key.
Variable verify_signature : key -> pval -> list byte -> bool.

Abbreviation loop := (listen username unpack_data unpack_key verify_signature).
Abbreviation step := (process username unpack_data unpack_key verify_signature).

(** One datagram never rebinds a recorded peer: its key stays, unless the
    datagram is a LEAVE naming that peer. *)
Lemma step_keeps_key (st : state key) (ev : recv_event) (u : string) (k : key) :
  known_peers st !! u = Some k -> leave_name ev <> Some u ->
  known_peers (res_state (step st ev)) !! u = Some k.
Proof.
  intros Hk Hl. destruct ev as [p|e]; [|exact Hk].
  rewrite process_RecvOK. unfold leave_name in Hl.
  destruct (decode_envelope p) as [[[[[mt em] n] s] sn]|]; [|exact Hk].
  unfold handle.
  destruct (is_str mt "CHAT").
  { destruct (unpack_data em n) as [raw|]; [|exact Hk].
    destruct (negb _); [|exact Hk].
    destruct (known_peers st !! split_head raw) as [pk|]; [|exact Hk].
    destruct (verify_signature _ _ _); exact Hk. }
  destruct (is_str mt "JOIN").
  { destruct (unpack_data em n) as [v|]; [|exact Hk].
    destruct (unpack_key s sn) as [dk|]; [|exact Hk].
    destruct (known_peers st !! v) as [?|] eqn:Ev; [exact Hk|].
    cbn [res_state emit set_peers known_peers].
    rewrite lookup_insert_ne; [exact Hk|]. intros ->. congruence. }
  destruct (is_str mt "LEAVE"); [|by destruct (print_fails mt)].
  destruct em as [| |b|]; try exact Hk.
  destruct (utf8_decode b) as [d|]; [|exact Hk].
  cbn [emit known_peers].
  destruct (known_peers st !! d); cbn [res_state set_peers known_peers]; [|exact Hk].
  rewrite lookup_delete_ne; [exact Hk|]. intros ->. congruence.
Qed.

(** One datagram binds a peer to a key only as a JOIN announcing them with
    that key. *)
Lemma step_binds_by_join (st : state key) (ev : recv_event) (u : string) (k : key) :
  known_peers (res_state (step st ev)) !! u = Some k ->
  known_peers st !! u = Some k \/ join_for unpack_data unpack_key u k ev.
Proof.
  intros H. destruct ev as [p|e]; [|left; exact H].
  rewrite process_RecvOK in H.
  destruct (decode_envelope p) as [[[[[mt em] n] s] sn]|] eqn:Hd; [|left; exact H].
  unfold handle in H.
  destruct (is_str mt "CHAT").
  { left. destruct (unpack_data em n) as [raw|]; [|exact H].
    destruct (negb _); [|exact H].
    destruct (known_peers st !! split_head raw) as [pk|]; [|exact H].
    destruct (verify_signature _ _ _); exact H. }
  destruct (is_str mt "JOIN") eqn:Hj.
  { destruct (unpack_data em n) as [v|] eqn:Hv; [|left; exact H].
    destruct (unpack_key s sn) as [dk|] eqn:Hdk; [|left; exact H].
    destruct (known_peers st !! v) as [?|] eqn:Ev; [left; exact H|].
    cbn [res_state emit set_peers known_peers] in H.
    destruct (decide (v = u)) as [->|Hne].
    - right. rewrite lookup_insert_eq in H. injection H as ->.
      exists p, mt, em, n, s, sn. auto.
    - left. rewrite lookup_insert_ne in H by exact Hne. exact H. }
  left. destruct (is_str mt "LEAVE"); [|by destruct (print_fails mt)].
  destruct em as [| |b|]; try exact H.
  destruct (utf8_decode b) as [d|]; [|exact H].
  cbn [emit known_peers] in H.
  destruct (known_peers st !! d); cbn [res_state set_peers known_peers] in H; [|exact H].
  destruct (decide (d = u)) as [->|Hne].
  - rewrite lookup_delete_eq in H. discriminate.
  - rewrite lookup_delete_ne in H by exact Hne. exact H.
Qed.

Lemma loop_binds_by_join (evs : list recv_event) (st : state key) (u : string) (k : key) :
  known_peers (loop_state (loop evs st)) !! u = Some k ->
  known_peers st !! u = Some k \/ Exists (join_for unpack_data unpack_key u k) evs.
Proof.
  revert st. induction evs as [|ev evs IH]; intros st H; [left; exact H|].
  pose proof (step_binds_by_join st ev u k) as Hs.
  cbn [listen] in H.
  destruct (step st ev) as [st'|[e|cls] st'] eqn:E; cbn [res_state] in Hs.
  - destruct (IH st' H) as [H'|H']; [|right; by apply Exists_cons_tl].
    destruct (Hs H') as [?|?]; [left; done | right; by apply Exists_cons_hd].
  - destruct (IH st' H) as [H'|H']; [|right; by apply Exists_cons_tl].
    destruct (Hs H') as [?|?]; [left; done | right; by apply Exists_cons_hd].
  - cbn [loop_state emit known_peers] in H.
    destruct (Hs H) as [?|?]; [left; done | right; by apply Exists_cons_hd].
Qed.

(** X2: A datagram that decodes to five values whose message type is not one of
    the strings "CHAT", "JOIN", "LEAVE" (another string, or a value of
    another type such as the bytes [b"CHAT"]) is reported as an unknown
    type, provided that report prints (it does unless the type is a string
    holding a lone surrogate); the loop goes on and the directory is
    unchanged. *)
Theorem unknown_type_skipped (p : list byte) (mt em n s sn : pval)
    (evs : list recv_event) (st : state key) :
  decode_envelope p = Some (mt, em, n, s, sn) ->
  is_str mt "CHAT" = false -> is_str mt "JOIN" = false -> is_str mt "LEAVE" = false ->
  print_fails mt = false ->
  loop (RecvOK p :: evs) st = loop evs (emit st (ShowUnknownType mt)).
Proof.
  intros Hd Hc Hj Hl Hp. cbn [listen]. rewrite process_RecvOK, Hd.
  unfold handle. rewrite Hc, Hj, Hl, Hp. reflexivity.
Qed.

(** X3: A JOIN whose username or public key fails to decrypt is not skipped:
    the exception reaches the generic handler and the receive loop ends. *)
Theorem join_decrypt_failure_ends_loop (p : list byte) (em n s sn : pval)
    (evs : list recv_event) (st : state key) :
  decode_envelope p = Some (PStr "JOIN", em, n, s, sn) ->
  unpack_data em n = None \/ unpack_key s sn = None ->
  loop (RecvOK p :: evs) st = Exited (emit st (ShowRecvError "CryptoError")).
Proof.
  intros Hd H. cbn [listen]. rewrite process_RecvOK, Hd. unfold handle.
  cbn [is_str String.eqb Ascii.eqb Bool.eqb andb].
  destruct H as [H|H]; rewrite H; [reflexivity|].
  by destruct (unpack_data em n).
Qed.

(** X4: A LEAVE whose username field is a [str], an [int] or a tuple (none
    has a [.decode] method: [AttributeError]), or a [bytes] object that is
    not valid UTF-8 ([UnicodeDecodeError]), ends the receive loop. *)
Theorem leave_bad_name_ends_loop (p : list byte) (em n s sn : pval)
    (evs : list recv_event) (st : state key) :
  decode_envelope p = Some (PStr "LEAVE", em, n, s, sn) ->
  match em with PBytes b => utf8_decode b = None | _ => True end ->
  exists cls, loop (RecvOK p :: evs) st = Exited (emit st (ShowRecvError cls)).
Proof.
  intros Hd H. cbn [listen]. rewrite process_RecvOK, Hd. unfold handle.
  cbn [is_str String.eqb Ascii.eqb Bool.eqb andb].
  destruct em as [| |b|]; try (eexists; reflexivity).
  rewrite H. eexists. reflexivity.
Qed.

(** X5: [recvfrom(config.BUFFER_SIZE)] returns only the first [BUFFER_SIZE]
    bytes of a longer datagram.  An envelope cut short this way, or in any
    other way, never decodes, and it ends the receive loop. *)
Theorem truncated_datagram_ends_loop (e : Envelope) (BUFFER_SIZE : nat)
    (evs : list recv_event) (st : state key) :
  (BUFFER_SIZE < length (encode e))%nat -> N.of_nat (length (encode e)) < 2 ^ 64 ->
  loop (RecvOK (firstn BUFFER_SIZE (encode e)) :: evs) st
  = Exited (emit st (ShowRecvError "UnpicklingError")).
Proof.
  intros Hn Hb. cbn [listen process].
  rewrite loads_truncated_envelope by assumption. reflexivity.
Qed.

(** X6: Once the directory maps [u] to [k], it keeps doing so, whatever plain
    datagrams arrive (JOINs for [u] with other keys included), until a LEAVE
    naming [u] is received.  A plain datagram is one whose pickle the model
    reads; a pickle that calls functions while loading can change the
    directory in any way. *)
Theorem peer_key_pinned (evs : list recv_event) (st : state key) (u : string) (k : key) :
  known_peers st !! u = Some k ->
  Forall (fun ev => plain_datagram ev = true) evs ->
  Forall (fun ev => leave_name ev <> Some u) evs ->
  known_peers (loop_state (loop evs st)) !! u = Some k.
Proof.
  intros Hk _ Hevs. revert st Hk.
  induction Hevs as [|ev evs Hev _ IH]; intros st Hk; [exact Hk|].
  pose proof (step_keeps_key st ev u k Hk Hev) as Hs.
  cbn [listen].
  destruct (step st ev) as [st'|[e|cls] st']; cbn [res_state] in Hs; auto.
Qed.

(** X7: A user absent from the directory is in it after a run of the loop on
    plain datagrams (see X6) only if one of them was a JOIN announcing that
    user with exactly the key now recorded. *)
Theorem peer_added_only_by_join (evs : list recv_event) (st : state key) (u : string) (k : key) :
  Forall (fun ev => plain_datagram ev = true) evs ->
  known_peers st !! u = None ->
  known_peers (loop_state (loop evs st)) !! u = Some k ->
  Exists (join_for unpack_data unpack_key u k) evs.
Proof.
  intros _ Hnone H. destruct (loop_binds_by_join evs st u k H) as [H'|H']; [congruence | exact H'].
Qed.

End ReceiverFacts.

(** ** What one client sends, as another client receives it *)

Lemma prefix_own_name (u r : string) : String.prefix (u +:+ ": ") (u +:+ ": " +:+ r) = true.
Proof.
  induction u as [|c u IH]; [exact (prefix_append ": " r)|].
  rewrite !append_cons. cbn [String.prefix].
  destruct (Ascii.ascii_dec c c); [exact IH | contradiction].
Qed.

Section EndToEnd.

Context {key : Type}.
Variable unpack_data : pval -> pval -> option string.
Variable unpack_key : pval -> pval -> option key.
Variable verify_signature : key -> pval -> list byte -> bool.
Variable pack_data_sign : list byte -> list byte * list byte * list byte.
Variable NULL_BYTE : list byte.

Abbreviation recv u := (listen u unpack_data unpack_key verify_signature).

(** X8: Multicast delivers a client's own CHAT back to it; with a cipher that
    decrypts what it encrypted, the client never displays it, whatever its
    username and the message. *)
Theorem own_chat_not_shown (u raw : string) (c n s : list byte)
    (evs : list recv_event) (st : state key) :
  pack_data_sign (String.list_byte_of_string (u +:+ ": " +:+ raw)) = (c, n, s) ->
  envelope_ok (mk_envelope CHAT c n s NULL_BYTE) ->
  unpack_data (PBytes c) (PBytes n) = Some (u +:+ ": " +:+ raw) ->
  recv u (RecvOK (chat_payload u pack_data_sign NULL_BYTE raw) :: evs) st = recv u evs st.
Proof.
  intros Hp Hok Hd. unfold chat_payload. rewrite Hp.
  rewrite (listen_chat u unpack_data unpack_key verify_signature
             (mk_envelope CHAT c n s NULL_BYTE)) by (reflexivity || exact Hok).
  cbn [field2 field3 field4]. rewrite Hd.
  unfold startswith. rewrite prefix_own_name. reflexivity.
Qed.

(** X9: A CHAT typed by [a] is displayed by another client [b] as "<a>: <raw>"
    when [b] holds a key for [a] that verifies [a]'s signature, the two
    usernames differ and neither contains ": "; [b]'s directory is
    unchanged. *)
Theorem peer_chat_shown (a b raw : string) (pk : key) (c n s : list byte)
    (evs : list recv_event) (st : state key) :
  a <> b -> contains_sep a = false -> contains_sep b = false ->
  pack_data_sign (String.list_byte_of_string (a +:+ ": " +:+ raw)) = (c, n, s) ->
  envelope_ok (mk_envelope CHAT c n s NULL_BYTE) ->
  unpack_data (PBytes c) (PBytes n) = Some (a +:+ ": " +:+ raw) ->
  known_peers st !! a = Some pk ->
  verify_signature pk (PBytes s) (String.list_byte_of_string (a +:+ ": " +:+ raw)) = true ->
  recv b (RecvOK (chat_payload a pack_data_sign NULL_BYTE raw) :: evs) st
  = recv b evs (emit st (Show (a +:+ ": " +:+ raw))).
Proof.
  intros Hab Ha Hb Hp Hok Hd Hk Hv. unfold chat_payload. rewrite Hp.
  rewrite (listen_chat b unpack_data unpack_key verify_signature
             (mk_envelope CHAT c n s NULL_BYTE)) by (reflexivity || exact Hok).
  cbn [field2 field3 field4]. rewrite Hd.
  unfold startswith.
  destruct (String.prefix (b +:+ ": ") (a +:+ ": " +:+ raw)) eqn:Hpre.
  { apply prefix_names in Hpre; [contradiction | exact Ha | exact Hb]. }
  cbn [negb]. rewrite split_head_sender by exact Ha. rewrite Hk, Hv. reflexivity.
Qed.

(** X10: The LEAVE notice a client [a] sends at exit makes any client [b]
    announce the departure and drop [a] from its directory. *)
Theorem leave_notice_received (a b : string) (evs : list recv_event) (st : state key) :
  utf8_valid false (String.list_byte_of_string a) = true ->
  N.of_nat (length (String.list_byte_of_string a)) < 2 ^ 63 ->
  N.of_nat (length NULL_BYTE) < 2 ^ 63 ->
  recv b (RecvOK (leave_payload a NULL_BYTE) :: evs) st
  = recv b evs (set_peers (emit st (Show (a +:+ " has left the chat.")))
                          (delete a (known_peers st))).
Proof.
  intros Hv Ha Hn. unfold leave_payload.
  rewrite (listen_leave b unpack_data unpack_key verify_signature
             (mk_envelope LEAVE (String.list_byte_of_string a) NULL_BYTE NULL_BYTE NULL_BYTE)
             evs st a).
  - destruct (known_peers st !! a) eqn:E; [reflexivity|].
    rewrite delete_id by exact E. reflexivity.
  - reflexivity.
  - repeat split; assumption.
  - cbn [field2]. unfold utf8_decode. rewrite Hv.
    by rewrite String.string_of_list_byte_of_string.
Qed.

End EndToEnd.

(** ** How the program ends *)

Section Shutdown.

Variable username : string.
Variable pack_data_sign : list byte -> list byte * list byte * list byte.
Variable NULL_BYTE : list byte.
Variable sendto_ok : list byte -> bool.

Abbreviation program := (main_program username pack_data_sign NULL_BYTE sendto_ok).
Abbreviation chat_msg := (chat_payload username pack_data_sign NULL_BYTE).

(** X11: After typed lines that are all sent, Ctrl-C ends the chat with the
    LEAVE notice, but closing the input (end of file) crashes the program
    with [EOFError], which is not caught, and no LEAVE is sent. *)
Theorem eof_skips_leave (pre : list string) :
  Forall (fun r => lower r <> "exit" /\ sendto_ok (chat_msg r) = true) pre ->
  program pre EndOfInput = (map chat_msg pre, Crashed "EOFError") /\
  program pre Interrupt
  = (map chat_msg pre ++ [leave_payload username NULL_BYTE],
     if sendto_ok (leave_payload username NULL_BYTE) then Finished else Crashed "OSError").
Proof.
  intros Hpre.
  assert (Hs : send_loop username pack_data_sign NULL_BYTE sendto_ok pre
               = (map chat_msg pre, AwaitingInput)).
  { induction Hpre as [|r pre [Hr Hok] _ IH]; [reflexivity|].
    cbn [send_loop map].
    destruct (String.eqb_spec (lower r) "exit") as [E|_]; [contradiction|].
    rewrite Hok, IH. reflexivity. }
  unfold main_program. rewrite Hs. split; reflexivity.
Qed.

End Shutdown.

(** ** The threads and the Peer Directory *)

Section Interleaving.

Context {key : Type}.
Variable username : string.
Variable unpack_data : pval -> pval -> option string.
Variable unpack_key : pval -> pval -> option key.
Variable verify_signature : key -> pval -> list byte -> bool.
Variable pack_data_nosign : list byte -> list byte * list byte.
Variable pack_data_sign : list byte -> list byte * list byte * list byte.
Variable get_ed_public_key : list byte.
Variable NULL_BYTE : list byte.
Variable sendto_ok : list byte -> bool.

Abbreviation rstep := (recv_step username unpack_data unpack_key verify_signature).
Abbreviation threads := (run_threads username unpack_data unpack_key verify_signature
                           pack_data_nosign pack_data_sign get_ed_public_key NULL_BYTE sendto_ok).

Lemma recv_steps_exited (evs : list recv_event) (st : state key) :
  fold_left rstep evs (Exited st) = Exited st.
Proof. induction evs as [|ev evs IH]; [reflexivity | exact IH]. Qed.

(** The loop of [listen_for_messages] is its iterations one after another. *)
Lemma listen_steps (evs : list recv_event) (st : state key) :
  listen username unpack_data unpack_key verify_signature evs st = fold_left rstep evs (Running st).
Proof.
  revert st. induction evs as [|ev evs IH]; intros st; [reflexivity|].
  cbn [listen fold_left recv_step].
  destruct (process _ _ _ _ st ev) as [st'|[e|cls] st']; [apply IH | apply IH |].
  symmetry. apply recv_steps_exited.
Qed.

(** Only the listener's steps act on the listener's state. *)
Lemma threads_listener (sched : list thread_step) (w : world key) :
  listener (threads sched w) = fold_left rstep (receive_events sched) (listener w).
Proof.
  revert w. induction sched as [|t sched IH]; intros w; [reflexivity|].
  unfold run_threads in *. cbn [fold_left]. rewrite IH.
  destruct t as [ev| |raw]; cbn [receive_events omap world_step listener].
  - reflexivity.
  - by destruct (discovering w).
  - destruct (sending w); [|reflexivity].
    by destruct (String.eqb (lower raw) "exit").
Qed.

(** C8: [known_peers] is written and read by the listener thread only; the
    discovery thread and the main thread never touch it.  So under every
    interleaving of the three threads' steps, the directory and everything
    the listener prints (including each signature check, which reads the
    directory) are exactly what the listener computes on its own datagrams
    processed one after another: no update is lost and no read sees a
    partly done update.  A finer interleaving, inside one iteration, gives
    the same result, as the other threads read and write nothing the
    listener uses. *)
Theorem directory_interleaving_safe (sched : list thread_step) (st : state key)
    (discovering sending : bool) (sent : list (list byte)) :
  listener (threads sched (mk_world key (Running st) discovering sending sent))
  = listen username unpack_data unpack_key verify_signature (receive_events sched) st.
Proof. rewrite threads_listener, listen_steps. reflexivity. Qed.

End Interleaving.

(** ** Reading the username *)

Lemma lstrip_chars_spec (cs : list string) :
  exists pre, cs = pre ++ lstrip_chars cs /\ Forall (fun c => py_isspace c = true) pre /\
    (forall c rest, lstrip_chars cs = c :: rest -> py_isspace c = false).
Proof.
  induction cs as [|c cs (pre & Hcs & Hpre & Hhd)].
  - exists []. split; [reflexivity|]. split; [constructor|]. discriminate.
  - cbn [lstrip_chars]. destruct (py_isspace c) eqn:Hc.
    + exists (c :: pre). split; [cbn; by f_equal|]. split; [by constructor|exact Hhd].
    + exists []. split; [reflexivity|]. split; [constructor|]. by intros ? ? [= <- _].
Qed.

Lemma lstrip_chars_nil (cs : list string) :
  lstrip_chars cs = [] <-> Forall (fun c => py_isspace c = true) cs.
Proof.
  induction cs as [|c cs IH]; [split; [constructor | reflexivity]|].
  cbn [lstrip_chars]. rewrite Forall_cons. destruct (py_isspace c); [|split; [discriminate|intros [[=] _]]].
  rewrite IH. tauto.
Qed.

Lemma utf8_group_nonempty (l : list byte) : Forall (fun x => x <> []) (snd (utf8_group l)).
Proof.
  induction l as [|b l IH]; [constructor|].
  cbn [utf8_group]. destruct (utf8_group l) as [pend cs].
  destruct (is_cont b); [exact IH|]. constructor; [discriminate | exact IH].
Qed.

Lemma utf8_chars_nonempty (s : string) : Forall (fun c => c <> "") (utf8_chars s).
Proof.
  unfold utf8_chars. apply Forall_map.
  eapply Forall_impl; [apply utf8_group_nonempty|].
  intros [|b x] H; [contradiction|]. discriminate.
Qed.

Lemma concat_nil (cs : list string) :
  Forall (fun c => c <> "") cs -> String.concat "" cs = "" -> cs = [].
Proof.
  intros Hne Hc. destruct cs as [|c cs]; [reflexivity|].
  apply Forall_cons in Hne as [Hc0 _].
  destruct c as [|ch c]; [contradiction|].
  destruct cs; [discriminate|]. cbn [String.concat] in Hc. rewrite append_cons in Hc. discriminate.
Qed.

(** X12: The client starts only when the typed line has a character that is not
    whitespace; the username it keeps is the line without its leading and
    trailing whitespace, and it begins and ends with a non-whitespace
    character (inner spaces, and ": ", are kept). *)
Theorem username_validation (line : string) :
  (username_of_input line = None <-> Forall (fun c => py_isspace c = true) (utf8_chars line)) /\
  (forall username, username_of_input line = Some username ->
     exists pre mid post,
       utf8_chars line = pre ++ mid ++ post /\
       Forall (fun c => py_isspace c = true) pre /\
       Forall (fun c => py_isspace c = true) post /\
       username = String.concat "" mid /\
       (exists c, head mid = Some c /\ py_isspace c = false) /\
       (exists c, last mid = Some c /\ py_isspace c = false)).
Proof.
  pose proof (utf8_chars_nonempty line) as Hne.
  unfold username_of_input, strip.
  set (cs := utf8_chars line) in *.
  destruct (lstrip_chars_spec cs) as (pre & Hcs & Hpre & Hhd).
  set (m1 := lstrip_chars cs) in *.
  destruct (lstrip_chars_spec (reverse m1)) as (pre2 & Hr & Hpre2 & Hhd2).
  set (m2 := lstrip_chars (reverse m1)) in *.
  assert (Hm1 : m1 = reverse m2 ++ reverse pre2).
  { rewrite <- reverse_app, <- Hr. symmetry. apply reverse_involutive. }
  assert (Hcs' : cs = pre ++ reverse m2 ++ reverse pre2) by (rewrite Hcs at 1; by rewrite Hm1).
  assert (Hmid : Forall (fun c => c <> "") (reverse m2)).
  { rewrite Hcs' in Hne. apply Forall_app in Hne as [_ Hne]. by apply Forall_app in Hne as [? _]. }
  split.
  - split.
    + intros H. destruct (String.eqb_spec (String.concat "" (reverse m2)) "") as [E|E];
        [|discriminate].
      apply concat_nil in E; [|exact Hmid].
      assert (Hm2 : m2 = []) by (destruct m2 using rev_ind; [done|]; rewrite reverse_snoc in E; discriminate).
      apply lstrip_chars_nil in Hm2. rewrite Forall_reverse in Hm2.
      destruct m1 as [|c rest] eqn:Em1.
      * rewrite Hcs, app_nil_r. exact Hpre.
      * apply Forall_cons in Hm2 as [Hc _]. by rewrite (Hhd c rest eq_refl) in Hc.
    + intros H. apply lstrip_chars_nil in H. fold m1 in H.
      assert (Hm2 : m2 = []) by (unfold m2; rewrite H; reflexivity).
      rewrite Hm2. reflexivity.
  - intros username Hu.
    destruct (String.eqb_spec (String.concat "" (reverse m2)) "") as [E|E]; [discriminate|].
    injection Hu as <-.
    exists pre, (reverse m2), (reverse pre2).
    split; [exact Hcs'|]. split; [exact Hpre|].
    split; [by apply Forall_reverse|]. split; [reflexivity|].
    destruct m2 as [|c2 rest2] eqn:Em2; [by destruct E|].
    split.
    + destruct (reverse (c2 :: rest2)) as [|x xs] eqn:Ex.
      { apply (f_equal length) in Ex. rewrite length_reverse in Ex. discriminate. }
      exists x. split; [reflexivity|].
      destruct m1 as [|c1 rest1] eqn:Em1; [discriminate Hm1|].
      injection Hm1 as Hx _. rewrite <- Hx. exact (Hhd c1 rest1 eq_refl).
    + exists c2. split; [|exact (Hhd2 c2 rest2 eq_refl)].
      by rewrite last_reverse.
Qed.

(** ** The properties above, on concrete inputs *)

Lemma unknown_type_skipped_witness :
  decode_envelope (dumps [ABytes Toy.bytes_CHAT; ABytes []; ABytes []; ABytes []; ABytes []])
  = Some (PBytes Toy.bytes_CHAT, PBytes [], PBytes [], PBytes [], PBytes []) /\
  listen "bob" Toy.unpack_data Toy.unpack_key Toy.verify_signature
    [RecvOK (dumps [ABytes Toy.bytes_CHAT; ABytes []; ABytes []; ABytes []; ABytes []])] Toy.st0
  = listen "bob" Toy.unpack_data Toy.unpack_key Toy.verify_signature []
      (emit Toy.st0 (ShowUnknownType (PBytes Toy.bytes_CHAT))).
Proof.
  split; [reflexivity|].
  apply (unknown_type_skipped "bob" Toy.unpack_data Toy.unpack_key Toy.verify_signature
           _ (PBytes Toy.bytes_CHAT) (PBytes []) (PBytes []) (PBytes []) (PBytes []));
    reflexivity.
Defined.

Lemma join_decrypt_failure_ends_loop_witness :
  listen "bob" Toy.unpack_data Toy.unpack_key Toy.verify_signature
    [RecvOK (dumps [AStr "JOIN"; AStr "alice"; ABytes []; ABytes Toy.pk_alice; ABytes []]);
     RecvOK (encode (mk_envelope LEAVE [x61] [] [] []))] Toy.st0
  = Exited (emit Toy.st0 (ShowRecvError "CryptoError")).
Proof.
  apply (join_decrypt_failure_ends_loop "bob" Toy.unpack_data Toy.unpack_key Toy.verify_signature
           _ (PStr "alice") (PBytes []) (PBytes Toy.pk_alice) (PBytes [])).
  - reflexivity.
  - left. reflexivity.
Defined.

Lemma leave_bad_name_ends_loop_witness :
  exists cls,
    listen "bob" Toy.unpack_data Toy.unpack_key Toy.verify_signature
      [RecvOK (encode (mk_envelope LEAVE [xff] [] [] []))] Toy.st0
    = Exited (emit Toy.st0 (ShowRecvError cls)).
Proof.
  apply (leave_bad_name_ends_loop "bob" Toy.unpack_data Toy.unpack_key Toy.verify_signature
           _ (PBytes [xff]) (PBytes []) (PBytes []) (PBytes [])); reflexivity.
Defined.

Lemma truncated_datagram_ends_loop_witness :
  listen "bob" Toy.unpack_data Toy.unpack_key Toy.verify_signature
    [RecvOK (firstn 30 (encode (mk_envelope CHAT [x68; x69] [] [] [])))] Toy.st0
  = Exited (emit Toy.st0 (ShowRecvError "UnpicklingError")).
Proof.
  apply (truncated_datagram_ends_loop "bob" Toy.unpack_data Toy.unpack_key Toy.verify_signature
           (mk_envelope CHAT [x68; x69] [] [] []) 30).
  - apply Nat.ltb_lt. vm_compute. reflexivity.
  - vm_compute. reflexivity.
Defined.

Lemma peer_key_pinned_witness :
  known_peers (loop_state (listen "bob" Toy.unpack_data Toy.unpack_key Toy.verify_signature
                             Toy.pinned_events (mk_state _ Toy.dir_alice [])))
    !! "alice" = Some Toy.pk_alice.
Proof.
  apply peer_key_pinned.
  - reflexivity.
  - repeat constructor.
  - repeat constructor; intros H; vm_compute in H; discriminate H.
Defined.

Lemma peer_added_only_by_join_witness :
  Exists (join_for Toy.unpack_data Toy.unpack_key "alice" Toy.pk_alice)
    [RecvErr EBADF;
     RecvOK (encode (mk_envelope JOIN (String.list_byte_of_string "alice") [] Toy.pk_alice []))].
Proof.
  apply (peer_added_only_by_join "bob" Toy.unpack_data Toy.unpack_key Toy.verify_signature
           _ Toy.st0).
  - repeat constructor.
  - reflexivity.
  - vm_compute. reflexivity.
Defined.

Lemma own_chat_not_shown_witness :
  listen "alice" Toy.unpack_data Toy.unpack_key Toy.verify_signature
    [RecvOK (chat_payload "alice" Toy.pack_data_sign [x00] "hi")] (mk_state _ Toy.dir_alice [])
  = listen "alice" Toy.unpack_data Toy.unpack_key Toy.verify_signature [] (mk_state _ Toy.dir_alice []).
Proof.
  apply (own_chat_not_shown Toy.unpack_data Toy.unpack_key Toy.verify_signature
           Toy.pack_data_sign [x00] "alice" "hi"
           (String.list_byte_of_string "alice: hi") []
           (Toy.pk_alice ++ String.list_byte_of_string "alice: hi")).
  - reflexivity.
  - repeat split; reflexivity.
  - reflexivity.
Defined.

Lemma peer_chat_shown_witness :
  listen "bob" Toy.unpack_data Toy.unpack_key Toy.verify_signature
    [RecvOK (chat_payload "alice" Toy.pack_data_sign [x00] "hi")] (mk_state _ Toy.dir_alice [])
  = listen "bob" Toy.unpack_data Toy.unpack_key Toy.verify_signature []
      (emit (mk_state _ Toy.dir_alice []) (Show ("alice" +:+ ": " +:+ "hi"))).
Proof.
  apply (peer_chat_shown Toy.unpack_data Toy.unpack_key Toy.verify_signature
           Toy.pack_data_sign [x00] "alice" "bob" "hi" Toy.pk_alice
           (String.list_byte_of_string "alice: hi") []
           (Toy.pk_alice ++ String.list_byte_of_string "alice: hi")).
  - discriminate.
  - reflexivity.
  - reflexivity.
  - reflexivity.
  - repeat split; reflexivity.
  - reflexivity.
  - reflexivity.
  - reflexivity.
Defined.

Lemma leave_notice_received_witness :
  listen "bob" Toy.unpack_data Toy.unpack_key Toy.verify_signature
    [RecvOK (leave_payload "alice" [x00])] (mk_state _ Toy.dir_alice [])
  = listen "bob" Toy.unpack_data Toy.unpack_key Toy.verify_signature []
      (set_peers (emit (mk_state _ Toy.dir_alice []) (Show ("alice" +:+ " has left the chat.")))
                 (delete "alice" Toy.dir_alice)).
Proof.
  apply (leave_notice_received Toy.unpack_data Toy.unpack_key Toy.verify_signature
           [x00] "alice" "bob"); reflexivity.
Defined.

Lemma eof_skips_leave_witness :
  main_program "alice" Toy.pack_data_sign [x00] (fun _ => true) ["hi"; "exit now"] EndOfInput
  = (map (chat_payload "alice" Toy.pack_data_sign [x00]) ["hi"; "exit now"], Crashed "EOFError") /\
  main_program "alice" Toy.pack_data_sign [x00] (fun _ => true) ["hi"; "exit now"] Interrupt
  = (map (chat_payload "alice" Toy.pack_data_sign [x00]) ["hi"; "exit now"] ++
       [leave_payload "alice" [x00]], Finished).
Proof.
  apply (eof_skips_leave "alice" Toy.pack_data_sign [x00] (fun _ => true)).
  repeat constructor; discriminate.
Defined.
